(** * The curl importer of bruno-app: [utils/curl/parse-curl-v2.js]

    A shallow embedding of [parseCurlCommand] and of the functions it is made
    of, followed by the properties of the importer.

    Conventions of the embedding.
    - A JavaScript string is a [string], one character for each code unit;
      the embedding is exact on ASCII strings.  Of the code units above
      127, the no-break space (160) is white space as in JavaScript; the
      others are carried through unchanged and have no case.
    - The request object that the parser mutates is a record that every
      function takes and returns; a property that may be absent is an
      [option], a flag that is only ever set to [true] is a [bool].  The
      module [Store] has the same functions as computations on the store
      of the program: the heap, where the request is an object reached by
      reference, and the table [FLAG_CATEGORIES] of the module.
    - A JavaScript exception is the [Throw] case of the [result] monad.
    - The packages [shell-quote], [url], [query-string] and [cookie] are not
      part of the repository: they are the fields of the class [Libs], and
      every theorem holds for every instance of it.  [ModelLibs] is one
      executable instance, used to run the parser on concrete commands. *)

From Stdlib Require Import Ascii.
From stdpp Require Import gmap strings list fin_maps.


(** ** JavaScript strings *)

Module Js.

Definition LF : ascii := "010"%char.
Definition CR : ascii := "013"%char.
Definition BS : ascii := "\"%char.
Definition SQ : ascii := "'"%char.
Definition DQ : ascii := "034"%char.

Definition ascii_eqb (a b : ascii) : bool := Ascii.eqb a b.

(** [.] of a regular expression without the [s] flag. *)
Definition is_line_terminator (c : ascii) : bool :=
  ascii_eqb c LF || ascii_eqb c CR.

(** [\s] of a regular expression, and the characters [trim] removes: the
    code units 9 to 13, the space and the no-break space. *)
Definition is_space (c : ascii) : bool :=
  let n := nat_of_ascii c in
  (Nat.leb 9 n && Nat.leb n 13) || Nat.eqb n 32 || Nat.eqb n 160.

Definition is_upper (c : ascii) : bool :=
  let n := nat_of_ascii c in Nat.leb 65 n && Nat.leb n 90.

Definition is_lower (c : ascii) : bool :=
  let n := nat_of_ascii c in Nat.leb 97 n && Nat.leb n 122.

Definition char_toUpperCase (c : ascii) : ascii :=
  if is_lower c then ascii_of_nat (nat_of_ascii c - 32) else c.

Definition char_toLowerCase (c : ascii) : ascii :=
  if is_upper c then ascii_of_nat (nat_of_ascii c + 32) else c.

Fixpoint map (f : ascii -> ascii) (s : string) : string :=
  match s with
  | EmptyString => EmptyString
  | String c r => String (f c) (map f r)
  end.

Fixpoint forallb (p : ascii -> bool) (s : string) : bool :=
  match s with
  | EmptyString => true
  | String c r => p c && forallb p r
  end.

Fixpoint existsb (p : ascii -> bool) (s : string) : bool :=
  match s with
  | EmptyString => false
  | String c r => p c || existsb p r
  end.

(** [s.toUpperCase()] and [s.toLowerCase()]. *)
Definition toUpperCase : string -> string := map char_toUpperCase.
Definition toLowerCase : string -> string := map char_toLowerCase.

(** A string is truthy when it is not empty. *)
Definition truthy (s : string) : bool :=
  match s with EmptyString => false | _ => true end.

(** [s.includes(c)], also [s.indexOf(c) >= 0], for a one-character [c]. *)
Definition includes (c : ascii) (s : string) : bool := existsb (ascii_eqb c) s.

(** [s.endsWith(c)] for a one-character [c]. *)
Fixpoint endsWith (c : ascii) (s : string) : bool :=
  match s with
  | EmptyString => false
  | String d EmptyString => ascii_eqb d c
  | String _ r => endsWith c r
  end.

(** [s.split(c)] for a one-character separator [c]. *)
Fixpoint split (c : ascii) (s : string) : list string :=
  match s with
  | EmptyString => [EmptyString]
  | String d r =>
      if ascii_eqb d c then EmptyString :: split c r
      else match split c r with
           | h :: t => String d h :: t
           | [] => [String d EmptyString]
           end
  end.

(** The text before and after the first [c], when there is one. *)
Fixpoint break_at (c : ascii) (s : string) : option (string * string) :=
  match s with
  | EmptyString => None
  | String d r =>
      if ascii_eqb d c then Some (EmptyString, r)
      else match break_at c r with
           | Some (a, b) => Some (String d a, b)
           | None => None
           end
  end.

(** The longest prefix without a line terminator: what [.*] matches. *)
Fixpoint line_prefix (s : string) : string :=
  match s with
  | EmptyString => EmptyString
  | String c r => if is_line_terminator c then EmptyString else String c (line_prefix r)
  end.

(** Index of the last [c] of [s]. *)
Fixpoint last_index (c : ascii) (s : string) : option nat :=
  match s with
  | EmptyString => None
  | String d r =>
      match last_index c r with
      | Some j => Some (S j)
      | None => if ascii_eqb d c then Some 0 else None
      end
  end.

Fixpoint drop (n : nat) (s : string) : string :=
  match n, s with
  | 0, _ => s
  | S _, EmptyString => EmptyString
  | S k, String _ r => drop k r
  end.

(** [s.replace(pat, rep)] for a pattern that is a literal text: the first
    occurrence only. *)
Fixpoint replace_first (pat rep s : string) : string :=
  if String.prefix pat s then rep +:+ drop (String.length pat) s
  else match s with
       | EmptyString => EmptyString
       | String c r => String c (replace_first pat rep r)
       end.

Fixpoint trimStart (s : string) : string :=
  match s with
  | EmptyString => EmptyString
  | String c r => if is_space c then trimStart r else s
  end.

Fixpoint trimEnd (s : string) : string :=
  match s with
  | EmptyString => EmptyString
  | String c r =>
      match trimEnd r with
      | EmptyString => if is_space c then EmptyString else String c EmptyString
      | r' => String c r'
      end
  end.

(** [s.trim()]. *)
Definition trim (s : string) : string := trimEnd (trimStart s).

End Js.

(** ** Tokens, values and the request object *)

(** An entry of the array returned by [parse] of shell-quote: a string, or
    one of the objects [{ op }], [{ op: 'glob', pattern }], [{ comment }]. *)
Inductive token : Type :=
| Word (s : string)
| Op (op : string)
| Glob (pattern : string)
| Comment (text : string).

#[global] Instance token_eq_dec : EqDecision token.
Proof. solve_decision. Defined.

(** [!!arg]: every object is truthy, a string is truthy when not empty. *)
Definition token_truthy (t : token) : bool :=
  match t with Word s => Js.truthy s | _ => true end.

(** [String(arg)], as string concatenation computes it. *)
Definition token_toString (t : token) : string :=
  match t with Word s => s | _ => "[object Object]" end.

(** A property value: [None] is [undefined]. *)
Abbreviation jsval := (option token).

Definition jsval_truthy (v : jsval) : bool :=
  match v with Some t => token_truthy t | None => false end.

Inductive exn : Type :=
| TypeError
| LibraryError.

Inductive result (A : Type) : Type :=
| Ok (a : A)
| Throw (e : exn).
Arguments Ok {A} a.
Arguments Throw {A} e.

Definition bind {A B : Type} (m : result A) (k : A -> result B) : result B :=
  match m with Ok a => k a | Throw e => Throw e end.

Notation "'let!' x ':=' m 'in' k" := (bind m (fun x => k))
  (at level 10, x name, k at level 200).

(** Parsing states: the categories of [FLAG_CATEGORIES] that
    [handleFlagCategory] can return. *)
Inductive state : Type :=
| StUserAgent | StHeader | StData | StJson | StUser | StMethod | StCookie | StForm.

#[global] Instance state_eq_dec : EqDecision state.
Proof. solve_decision. Defined.

(** An element of [multipartUploads]. *)
Record upload : Type := MkUpload {
  up_name : string;
  up_value : string;
  up_type : string;
  up_enabled : bool
}.

(** The [auth] property. *)
Record auth_t : Type := MkAuth {
  mode : string;
  basic_username : string;
  basic_password : string
}.

(** A value of the object returned by [querystring.parse]. *)
Inductive qval : Type :=
| QNull
| QStr (s : string)
| QArr (l : list (option string)).

(** The request object.  [headers] is an object used as a map; its property
    values are strings, [undefined], or a token object. *)
Record request : Type := MkRequest {
  headers : option (gmap string jsval);
  method : option string;
  url : option string;
  urlWithoutQuery : option string;
  data : jsval;
  isDataRaw : bool;
  isDataBinary : bool;
  insecure : bool;
  isQuery : bool;
  auth : option auth_t;
  multipartUploads : option (list upload);
  cookies : option (gmap string string);
  cookieString : option string;
  query : option (gmap string qval)
}.

Definition set_headers v (r : request) : request :=
  MkRequest v (method r) (url r) (urlWithoutQuery r) (data r) (isDataRaw r)
    (isDataBinary r) (insecure r) (isQuery r) (auth r) (multipartUploads r)
    (cookies r) (cookieString r) (query r).
Definition set_method v (r : request) : request :=
  MkRequest (headers r) v (url r) (urlWithoutQuery r) (data r) (isDataRaw r)
    (isDataBinary r) (insecure r) (isQuery r) (auth r) (multipartUploads r)
    (cookies r) (cookieString r) (query r).
Definition set_url v (r : request) : request :=
  MkRequest (headers r) (method r) v (urlWithoutQuery r) (data r) (isDataRaw r)
    (isDataBinary r) (insecure r) (isQuery r) (auth r) (multipartUploads r)
    (cookies r) (cookieString r) (query r).
Definition set_urlWithoutQuery v (r : request) : request :=
  MkRequest (headers r) (method r) (url r) v (data r) (isDataRaw r)
    (isDataBinary r) (insecure r) (isQuery r) (auth r) (multipartUploads r)
    (cookies r) (cookieString r) (query r).
Definition set_data v (r : request) : request :=
  MkRequest (headers r) (method r) (url r) (urlWithoutQuery r) v (isDataRaw r)
    (isDataBinary r) (insecure r) (isQuery r) (auth r) (multipartUploads r)
    (cookies r) (cookieString r) (query r).
Definition set_isDataRaw v (r : request) : request :=
  MkRequest (headers r) (method r) (url r) (urlWithoutQuery r) (data r) v
    (isDataBinary r) (insecure r) (isQuery r) (auth r) (multipartUploads r)
    (cookies r) (cookieString r) (query r).
Definition set_isDataBinary v (r : request) : request :=
  MkRequest (headers r) (method r) (url r) (urlWithoutQuery r) (data r) (isDataRaw r)
    v (insecure r) (isQuery r) (auth r) (multipartUploads r)
    (cookies r) (cookieString r) (query r).
Definition set_insecure v (r : request) : request :=
  MkRequest (headers r) (method r) (url r) (urlWithoutQuery r) (data r) (isDataRaw r)
    (isDataBinary r) v (isQuery r) (auth r) (multipartUploads r)
    (cookies r) (cookieString r) (query r).
Definition set_isQuery v (r : request) : request :=
  MkRequest (headers r) (method r) (url r) (urlWithoutQuery r) (data r) (isDataRaw r)
    (isDataBinary r) (insecure r) v (auth r) (multipartUploads r)
    (cookies r) (cookieString r) (query r).
Definition set_auth v (r : request) : request :=
  MkRequest (headers r) (method r) (url r) (urlWithoutQuery r) (data r) (isDataRaw r)
    (isDataBinary r) (insecure r) (isQuery r) v (multipartUploads r)
    (cookies r) (cookieString r) (query r).
Definition set_multipartUploads v (r : request) : request :=
  MkRequest (headers r) (method r) (url r) (urlWithoutQuery r) (data r) (isDataRaw r)
    (isDataBinary r) (insecure r) (isQuery r) (auth r) v
    (cookies r) (cookieString r) (query r).
Definition set_cookies v (r : request) : request :=
  MkRequest (headers r) (method r) (url r) (urlWithoutQuery r) (data r) (isDataRaw r)
    (isDataBinary r) (insecure r) (isQuery r) (auth r) (multipartUploads r)
    v (cookieString r) (query r).
Definition set_cookieString v (r : request) : request :=
  MkRequest (headers r) (method r) (url r) (urlWithoutQuery r) (data r) (isDataRaw r)
    (isDataBinary r) (insecure r) (isQuery r) (auth r) (multipartUploads r)
    (cookies r) v (query r).
Definition set_query v (r : request) : request :=
  MkRequest (headers r) (method r) (url r) (urlWithoutQuery r) (data r) (isDataRaw r)
    (isDataBinary r) (insecure r) (isQuery r) (auth r) (multipartUploads r)
    (cookies r) (cookieString r) v.

(** [{ headers: {} }], the object [buildRequest] starts from. *)
Definition empty_request : request :=
  MkRequest (Some ∅) None None None None false false false false None None None None None.

(** [obj[k] = v] on an ordinary object.  Where the parser computes the key
    (the name of a header), the value is a string or [undefined], and
    assigning such a value to [__proto__] creates no property. *)
Definition obj_set (k : string) (v : jsval) (o : gmap string jsval) : gmap string jsval :=
  if decide (k = "__proto__") then o else <[k := v]> o.

(** [request.headers[k] = v]; a [TypeError] when [request.headers] is
    [undefined]. *)
Definition headers_set (k : string) (v : jsval) (r : request) : result request :=
  match headers r with
  | Some h => Ok (set_headers (Some (obj_set k v h)) r)
  | None => Throw TypeError
  end.

(** ** The packages the parser imports *)

Class Libs : Type := MkLibs {
  (** [parse] of shell-quote; it may throw. *)
  shell_parse : string -> result (list token);
  (** the object [URL.parse] returns, with its [host] and [query];
      [URL.parse] throws on some strings. *)
  UrlObject : Type;
  URL_parse : string -> result UrlObject;
  URL_host : UrlObject -> option string;
  URL_query : UrlObject -> option string;
  (** [URL.format] of such an object. *)
  URL_format : UrlObject -> result string;
  (** [querystring.parse(q, { sort: false })]. *)
  querystring_parse : option string -> result (gmap string qval);
  (** [cookie.parse] of a string: it throws on other values only, and
      the parser calls it on strings only. *)
  cookie_parse : string -> gmap string string
}.

(** ** The parser *)

(** The keys of [FLAG_CATEGORIES]. *)
Inductive category : Type :=
| CUserAgent | CHeader | CData | CJson | CUser | CMethod | CCookie | CForm
| CDataRaw | CDataBinary
| CHead | CCompressed | CInsecure | CQuery.

Definition FLAG_CATEGORIES : list (category * list string) :=
  [ (CUserAgent, ["-A"; "--user-agent"]);
    (CHeader, ["-H"; "--header"]);
    (CData, ["-d"; "--data"; "--data-ascii"; "--data-urlencode"]);
    (CJson, ["--json"]);
    (CUser, ["-u"; "--user"]);
    (CMethod, ["-X"; "--request"]);
    (CCookie, ["-b"; "--cookie"]);
    (CForm, ["-F"; "--form"]);
    (CDataRaw, ["--data-raw"]);
    (CDataBinary, ["--data-binary"]);
    (CHead, ["-I"; "--head"]);
    (CCompressed, ["--compressed"]);
    (CInsecure, ["-k"; "--insecure"]);
    (CQuery, ["-G"; "--get"]) ].

(** [flags.includes(arg)]: strict equality, so only a string can be found. *)
Definition flags_include (flags : list string) (arg : token) : bool :=
  match arg with
  | Word s => bool_decide (s ∈ flags)
  | _ => false
  end.

(** The first category of [FLAG_CATEGORIES] whose flags include [arg]. *)
Definition find_category (arg : token) : option category :=
  fst <$> List.find (fun e => flags_include (snd e) arg) FLAG_CATEGORIES.

(** [parseFormField] matches the field against one regular expression: a
    name without [=] (at least one character), the first [=], and then, up
    to the end of the field, the first that fits of
    - a text without double quote, between double quotes, after an optional
      [@] (capture 2),
    - [@] and a text without [@] (capture 3),
    - a text without [@] (capture 4).
    [quoted_body r] is capture 2 when [r] starts at the opening quote;
    [form_value r] is the capture that the match selects for the text [r]
    after the [=], which is also the field value, an empty capture and a
    missing one both giving the empty string. *)
Definition quoted_body (r : string) : option string :=
  match r with
  | String q body =>
      if Js.ascii_eqb q Js.DQ then
        match Js.break_at Js.DQ body with
        | Some (x, EmptyString) => Some x
        | _ => None
        end
      else None
  | EmptyString => None
  end.

Definition form_value (r : string) : option string :=
  let at_sign := "@"%char in
  let unquoted :=
    match r with
    | String a y =>
        if Js.ascii_eqb a at_sign then
          (if Js.includes at_sign y then None else Some y)
        else (if Js.includes at_sign r then None else Some r)
    | EmptyString => Some EmptyString
    end in
  let quoted :=
    match quoted_body r with
    | Some x => Some x
    | None =>
        match r with
        | String a r' => if Js.ascii_eqb a at_sign then quoted_body r' else None
        | EmptyString => None
        end
    end in
  match quoted with
  | Some x => Some x
  | None => unquoted
  end.

Definition parseFormField (field : string) : option upload :=
  match Js.break_at "="%char field with
  | Some (String c n, r) =>
      match form_value r with
      | Some v =>
          let isFile := Js.includes "@"%char field in
          Some (MkUpload (String c n) v (if isFile then "file" else "text") true)
      | None => None
      end
  | _ => None
  end.

(** [value.split(/: (.+)/)], destructured into its first two elements. *)
Fixpoint split_header (value : string) : string * option string :=
  match value with
  | EmptyString => (EmptyString, None)
  | String c r =>
      let here :=
        match r with
        | String sp (String d _) =>
            Js.ascii_eqb c ":"%char && Js.ascii_eqb sp " "%char
            && negb (Js.is_line_terminator d)
        | _ => false
        end in
      if here then (EmptyString, Some (Js.line_prefix (Js.drop 1 r)))
      else let '(n, v) := split_header r in (String c n, v)
  end.

(** [/^[^=]+=[^&]*$/.test(arg)]. *)
Definition looks_like_query_param (arg : string) : bool :=
  match Js.break_at "="%char arg with
  | Some (String _ _, r) => negb (Js.includes "&"%char r)
  | _ => false
  end.

(** The steps of [cleanCurlCommand]. *)

(** [replace(/\$('.*')/g, (match, group) => group)]: a dollar sign before a
    quote that is closed on the same line is dropped; the quoted text,
    up to the last quote of the line, is kept as it is.  [keep] counts the
    characters of a match that are still to be copied. *)
Fixpoint unescape_dollar_quotes (keep : nat) (s : string) : string :=
  match s with
  | EmptyString => EmptyString
  | String c r =>
      match keep with
      | S k => String c (unescape_dollar_quotes k r)
      | 0 =>
          let closing :=
            match r with
            | String q body =>
                if Js.ascii_eqb c "$"%char && Js.ascii_eqb q Js.SQ
                then Js.last_index Js.SQ (Js.line_prefix body)
                else None
            | EmptyString => None
            end in
          match closing with
          | Some j => unescape_dollar_quotes (j + 2) r
          | None => String c (unescape_dollar_quotes 0 r)
          end
      end
  end.

(** Removes every backslash that is followed by a carriage return or a line
    feed, together with that character. *)
Fixpoint remove_line_continuations (s : string) : string :=
  match s with
  | EmptyString => EmptyString
  | String c r =>
      match r with
      | String d r' =>
          if Js.ascii_eqb c Js.BS && Js.is_line_terminator d
          then remove_line_continuations r'
          else String c (remove_line_continuations r)
      | EmptyString => String c EmptyString
      end
  end.

(** Replaces every run of white space by one space.  [in_run] tells that the
    previous character was white space. *)
Fixpoint collapse_whitespace (in_run : bool) (s : string) : string :=
  match s with
  | EmptyString => EmptyString
  | String c r =>
      if Js.is_space c
      then (if in_run then collapse_whitespace true r
            else String " "%char (collapse_whitespace true r))
      else String c (collapse_whitespace false r)
  end.

(** Replaces every backslash and quote that no quote follows by a quote, a
    backslash and two quotes. *)
Fixpoint convert_escaped_quotes (s : string) : string :=
  match s with
  | EmptyString => EmptyString
  | String c r =>
      match r with
      | String d r' =>
          let followed := match r' with
                          | String e _ => Js.ascii_eqb e Js.SQ
                          | EmptyString => false
                          end in
          if Js.ascii_eqb c Js.BS && Js.ascii_eqb d Js.SQ && negb followed
          then "'\''" +:+ convert_escaped_quotes r'
          else String c (convert_escaped_quotes r)
      | EmptyString => String c EmptyString
      end
  end.

Definition methodFixes : list (string * string) :=
  [ (" -XPOST", " -X POST");
    (" -XGET", " -X GET");
    (" -XPUT", " -X PUT");
    (" -XPATCH", " -X PATCH");
    (" -XDELETE", " -X DELETE");
    (" -XOPTIONS", " -X OPTIONS");
    (" -XHEAD", " -X HEAD");
    (" -Xnull", " ") ].

Definition fixConcatenatedMethods (command : string) : string :=
  fold_left (fun command fix_ => Js.replace_first (fst fix_) (snd fix_) command)
    methodFixes command.

Definition cleanCurlCommand (curlCommand : string) : string :=
  let curlCommand := unescape_dollar_quotes 0 curlCommand in
  let curlCommand := remove_line_continuations curlCommand in
  let curlCommand := collapse_whitespace false curlCommand in
  let curlCommand := convert_escaped_quotes curlCommand in
  let curlCommand := fixConcatenatedMethods curlCommand in
  Js.trim curlCommand.

Section Parser.
Context {L : Libs}.

(** [!!URL.parse(s).host]. *)
Definition host_truthy (s : string) : result bool :=
  let! parsed := URL_parse s in
  Ok (match URL_host parsed with
      | Some h => Js.truthy h
      | None => false
      end).

Definition setHeader (req : request) (value : token) : result request :=
  match value with
  | Word v =>
      let '(headerName, headerValue) := split_header v in
      headers_set headerName (Word <$> headerValue) req
  | _ => Throw TypeError
  end.

Definition setUserAgent (req : request) (value : token) : result request :=
  headers_set "User-Agent" (Some value) req.

Definition setData (req : request) (value : token) : request :=
  match data req with
  | Some d =>
      if token_truthy d
      then set_data (Some (Word (token_toString d +:+ "&" +:+ token_toString value))) req
      else set_data (Some value) req
  | None => set_data (Some value) req
  end.

Definition setJsonData (req : request) (value : token) : result request :=
  let req1 :=
    if bool_decide (method req = Some "GET")
       || bool_decide (method req = Some "HEAD")
    then set_method (Some "POST") req else req in
  let! req2 := headers_set "Content-Type" (Some (Word "application/json")) req1 in
  Ok (set_data (Some value) req2).

Definition setFormData (req : request) (value : token) : result request :=
  match value with
  | Word field =>
      let multipartUploads' :=
        match parseFormField field with
        | Some upload => [upload]
        | None => []
        end in
      let existing := default [] (multipartUploads req) in
      Ok (set_method (Some "POST")
            (set_multipartUploads (Some (existing ++ multipartUploads')) req))
  | _ => Throw TypeError
  end.

Definition setAuth (req : request) (value : token) : request :=
  match value with
  | Word v =>
      let parts := Js.split ":"%char v in
      let username := default EmptyString (parts !! 0) in
      let password := default EmptyString (parts !! 1) in
      set_auth (Some (MkAuth "basic" username password)) req
  | _ => req
  end.

Definition setMethod (req : request) (value : token) : result request :=
  match value with
  | Word v => Ok (set_method (Some (Js.toUpperCase v)) req)
  | _ => Throw TypeError
  end.

Definition setCookie (req : request) (value : token) : result request :=
  match value with
  | Word v =>
      let req1 := set_cookies (Some (cookie_parse v)) req in
      let req2 := set_cookieString (Some v) req1 in
      headers_set "Cookie" (Some (Word v)) req2
  | _ => Ok req
  end.

Definition isURL (arg : token) : result bool :=
  match arg with
  | Word s => host_truthy s
  | _ => Ok false
  end.

Definition isURLFragment (arg : token) : result bool :=
  match arg with
  | Glob pattern => host_truthy pattern
  | Op op =>
      if decide (op = "glob") then host_truthy EmptyString
      else Ok (bool_decide (op = "&"))
  | Word s => Ok (looks_like_query_param s)
  | Comment _ => Ok false
  end.

Definition isURLOrFragment (arg : token) : result bool :=
  let! url_like := isURL arg in
  if url_like then Ok true else isURLFragment arg.

Definition getUrlString (url : token) : option string :=
  match url with
  | Word s => Some s
  | Glob pattern => Some pattern
  | Op op => if decide (op = "&") then Some "&" else None
  | Comment _ => None
  end.

Definition updateUrlWithoutQuery (req : request) : request :=
  match url req with
  | Some u =>
      if Js.truthy u
      then set_urlWithoutQuery (head (Js.split "?"%char u)) req
      else req
  | None => req
  end.

Definition setURL (req : request) (url_arg : token) : request :=
  match getUrlString url_arg with
  | Some urlString =>
      if Js.truthy urlString then
        let url' :=
          match url req with
          | Some u => if Js.truthy u then u +:+ urlString else urlString
          | None => urlString
          end in
        updateUrlWithoutQuery (set_url (Some url') req)
      else req
  | None => req
  end.

Definition handleFlagCategory (cat : category) (arg : token) (req : request)
  : result (request * option state) :=
  match cat with
  | CUserAgent => Ok (req, Some StUserAgent)
  | CHeader => Ok (req, Some StHeader)
  | CData => Ok (req, Some StData)
  | CJson => Ok (req, Some StJson)
  | CUser => Ok (req, Some StUser)
  | CMethod => Ok (req, Some StMethod)
  | CCookie => Ok (req, Some StCookie)
  | CForm => Ok (req, Some StForm)
  | CDataRaw => Ok (set_isDataRaw true req, Some StData)
  | CDataBinary => Ok (set_isDataBinary true req, Some StData)
  | CHead => Ok (set_method (Some "HEAD") req, None)
  | CCompressed =>
      match headers req with
      | Some h =>
          let current := default None (h !! "Accept-Encoding") in
          let v := if jsval_truthy current then current
                   else Some (Word "deflate, gzip") in
          let! req1 := headers_set "Accept-Encoding" v req in
          Ok (req1, None)
      | None => Throw TypeError
      end
  | CInsecure => Ok (set_insecure true req, None)
  | CQuery => Ok (set_isQuery true req, None)
  end.

Definition handleFlag (arg : token) (req : request)
  : result (request * option state) :=
  match find_category arg with
  | Some cat => handleFlagCategory cat arg req
  | None => Ok (req, None)
  end.

Definition handleValue (value : token) (st : state) (req : request)
  : result request :=
  match st with
  | StHeader => setHeader req value
  | StUserAgent => setUserAgent req value
  | StData => Ok (setData req value)
  | StJson => setJsonData req value
  | StForm => setFormData req value
  | StUser => Ok (setAuth req value)
  | StMethod => setMethod req value
  | StCookie => setCookie req value
  end.

Definition processArgument (arg : token) (currentState : option state)
    (req : request) : result (request * option state) :=
  let! fr := handleFlag arg req in
  match snd fr with
  | Some st => Ok (fst fr, Some st)
  | None =>
      match currentState with
      | Some st =>
          if token_truthy arg then
            let! req1 := handleValue arg st (fst fr) in
            Ok (req1, None)
          else Ok (fst fr, None)
      | None =>
          let! url_like := isURLOrFragment arg in
          Ok (if url_like then setURL (fst fr) arg else fst fr, None)
      end
  end.

(** The state [buildRequest] keeps for the next argument. *)
Definition next_state (currentState newState : option state) : option state :=
  match currentState, newState with
  | Some _, None => None
  | _, Some st => Some st
  | None, None => currentState
  end.

(** The loop of [buildRequest], from any request and parsing state; it
    returns the state too. *)
Fixpoint run_args (parsedArgs : list token) (currentState : option state)
    (req : request) : result (request * option state) :=
  match parsedArgs with
  | [] => Ok (req, currentState)
  | arg :: rest =>
      let! pr := processArgument arg currentState req in
      run_args rest (next_state currentState (snd pr)) (fst pr)
  end.

Definition buildRequest (parsedArgs : list token) : result request :=
  let! rs := run_args parsedArgs None empty_request in
  Ok (fst rs).

(** [String(request.data)]. *)
Definition data_toString (v : jsval) : string :=
  match v with
  | Some t => token_toString t
  | None => "undefined"
  end.

Definition null_to_empty (v : qval) : qval :=
  match v with
  | QNull => QStr EmptyString
  | _ => v
  end.

(** The URL that [convertDataToQueryString] parses: the data appended to
    the query string of [url]. *)
Definition url_with_data (url : string) (data : jsval) : string :=
  (if negb (Js.includes "?"%char url) then url +:+ "?"
   else if negb (Js.endsWith "&"%char url) then url +:+ "&"
   else url) +:+ data_toString data.

Definition convertDataToQueryString (req : request) : result request :=
  match url req with
  | None => Throw TypeError
  | Some u =>
      let! parsedUrl := URL_parse (url_with_data u (data req)) in
      let! parsed := querystring_parse (URL_query parsedUrl) in
      let query := null_to_empty <$> parsed in
      let! formatted := URL_format parsedUrl in
      Ok (set_query (Some query) (set_url (Some formatted) req))
  end.

(** [!request.method]. *)
Definition method_missing (req : request) : bool :=
  match method req with
  | Some m => negb (Js.truthy m)
  | None => true
  end.

Definition postBuildProcessRequest (req : request) : result request :=
  let! req1 :=
    if isQuery req && jsval_truthy (data req) then
      let! converted := convertDataToQueryString req in
      Ok (set_isQuery false (set_data None converted))
    else if jsval_truthy (data req) then
      Ok (if method_missing req || bool_decide (method req = Some "HEAD")
          then set_method (Some "POST") req else req)
    else Ok req in
  Ok (if method_missing req1 then set_method (Some "GET") req1 else req1).

(** [isEmpty(request.headers)] of lodash. *)
Definition headers_isEmpty (req : request) : bool :=
  match headers req with
  | Some h => bool_decide (h = ∅)
  | None => true
  end.

Definition normalizeRequest (req : request) : result request :=
  match method req with
  | Some m =>
      let req1 := set_method (Some (Js.toLowerCase m)) req in
      Ok (if headers_isEmpty req1 then set_headers None req1 else req1)
  | None => Throw TypeError
  end.

Definition parseCurlCommand (curl : string) : result request :=
  let cleanedCommand := cleanCurlCommand curl in
  let! parsedArgs := shell_parse cleanedCommand in
  let! req := buildRequest parsedArgs in
  let! processed := postBuildProcessRequest req in
  normalizeRequest processed.
End Parser.

(** ** The parser in the store of the program

    The functions above take the request and return it.  In the program
    the request is one object on the heap: [buildRequest] creates it,
    every other function reaches it by reference and changes it in place,
    and [parseCurlCommand] returns the reference.  [FLAG_CATEGORIES] is an
    object of the module, which every call of [handleFlag] reads.
    [Store] places the parser there: a function is a computation on the
    store, made of the allocation, the reads and the writes that the
    source does, so that what a call reads and what it leaves behind can
    be stated.  What a function does to the fields of the request is the
    function of the same name above.  The objects a request refers to
    (its headers, its multipart list, its auth descriptor) are created
    along with it and are kept inside it.  Strings are immutable values,
    and the imported packages are functions, as in [Libs]. *)

Module Store.

Definition loc : Type := nat.

Record store : Type := MkStore {
  (** the object [FLAG_CATEGORIES] of the module *)
  flag_categories : list (category * list string);
  (** the request objects *)
  heap : gmap loc request
}.

(** The store when the module has been loaded. *)
Definition init : store := MkStore FLAG_CATEGORIES ∅.

(** A computation returns or throws, and leaves a store. *)
Definition M (A : Type) : Type := store -> result A * store.

Definition ret {A : Type} (a : A) : M A := fun sigma => (Ok a, sigma).

(** A call that reaches no object: a string function, a package. *)
Definition lift {A : Type} (r : result A) : M A := fun sigma => (r, sigma).

Definition mbind {A B : Type} (m : M A) (k : A -> M B) : M B :=
  fun sigma =>
    match m sigma with
    | (Ok a, sigma') => k a sigma'
    | (Throw e, sigma') => (Throw e, sigma')
    end.

Notation "'do!' x ':=' m 'in' k" := (mbind m (fun x => k))
  (at level 10, x name, k at level 200).

Definition set_object (l : loc) (r : request) (sigma : store) : store :=
  MkStore (flag_categories sigma) (<[l := r]> (heap sigma)).

(** A new object, at an address that is not in use. *)
Definition alloc (r : request) : M loc :=
  fun sigma =>
    let l := fresh (dom (heap sigma) : gset nat) in
    (Ok l, set_object l r sigma).

Definition read (l : loc) : M request :=
  fun sigma =>
    match heap sigma !! l with
    | Some r => (Ok r, sigma)
    | None => (Throw TypeError, sigma)
    end.

Definition write (l : loc) (r : request) : M unit :=
  fun sigma => (Ok tt, set_object l r sigma).

Definition read_FLAG_CATEGORIES : M (list (category * list string)) :=
  fun sigma => (Ok (flag_categories sigma), sigma).

(** A function that changes the object [l] in place.  When it throws the
    object is left as it was: no reference to it outlives the exception. *)
Definition in_place (l : loc) (f : request -> result request) : M unit :=
  do! r := read l in
  do! r' := lift (f r) in
  write l r'.

(** [find_category] in a table read from the store. *)
Definition find_category_in (table : list (category * list string))
    (arg : token) : option category :=
  fst <$> List.find (fun e => flags_include (snd e) arg) table.

Section Program.
Context {L : Libs}.

Definition handleFlagCategory (cat : category) (arg : token) (l : loc)
  : M (option state) :=
  do! r := read l in
  do! res := lift (handleFlagCategory cat arg r) in
  do! u := write l (fst res) in
  ret (snd res).

Definition handleFlag (arg : token) (l : loc) : M (option state) :=
  do! table := read_FLAG_CATEGORIES in
  match find_category_in table arg with
  | Some cat => handleFlagCategory cat arg l
  | None => ret None
  end.

Definition handleValue (value : token) (st : state) (l : loc) : M unit :=
  in_place l (handleValue value st).

Definition setURL (l : loc) (url_arg : token) : M unit :=
  in_place l (fun r => Ok (setURL r url_arg)).

Definition processArgument (arg : token) (currentState : option state)
    (l : loc) : M (option state) :=
  do! flagState := handleFlag arg l in
  match flagState with
  | Some st => ret (Some st)
  | None =>
      match currentState with
      | Some st =>
          if token_truthy arg then
            do! u := handleValue arg st l in ret None
          else ret None
      | None =>
          do! url_like := lift (isURLOrFragment arg) in
          if url_like then do! u := setURL l arg in ret None
          else ret None
      end
  end.

Fixpoint run_args (parsedArgs : list token) (currentState : option state)
    (l : loc) : M (option state) :=
  match parsedArgs with
  | [] => ret currentState
  | arg :: rest =>
      do! newState := processArgument arg currentState l in
      run_args rest (next_state currentState newState) l
  end.

(** [const request = { headers: {} }], the loop, [return request]. *)
Definition buildRequest (parsedArgs : list token) : M loc :=
  do! l := alloc empty_request in
  do! final := run_args parsedArgs None l in
  ret l.

Definition postBuildProcessRequest (l : loc) : M loc :=
  do! u := in_place l postBuildProcessRequest in ret l.

Definition normalizeRequest (l : loc) : M loc :=
  do! u := in_place l normalizeRequest in ret l.

Definition parseCurlCommand (curl : string) : M loc :=
  let cleanedCommand := cleanCurlCommand curl in
  do! parsedArgs := lift (shell_parse cleanedCommand) in
  do! l := buildRequest parsedArgs in
  do! processed := postBuildProcessRequest l in
  normalizeRequest processed.

End Program.

(** What the caller holds after a run: the object behind the reference
    that was returned, or the exception. *)
Definition returned (run : result loc * store) : result request :=
  match fst run with
  | Ok l =>
      match heap (snd run) !! l with
      | Some r => Ok r
      | None => Throw TypeError
      end
  | Throw e => Throw e
  end.

(** [sigma'] differs from [sigma] at the object [l] at most. *)
Definition agrees_but (l : loc) (sigma sigma' : store) : Prop :=
  flag_categories sigma' = flag_categories sigma
  /\ forall l', l' <> l -> heap sigma' !! l' = heap sigma !! l'.

End Store.

(** ** An executable instance of the imported packages

    [ModelLibs] follows the packages on a fragment of their inputs, which
    is enough to run the parser on concrete commands:
    - [shell_parse]: words separated by blanks, with single- and
      double-quoted parts; a command with an operator, a glob character, a
      variable, a comment or a backslash is outside the fragment and makes
      the model throw;
    - [URL_parse] and [URL_format]: lower-case [http://] and [https://]
      addresses without user information and without fragment (as [url]
      does, a missing path is printed as [/]); any other text has no host;
    - [querystring_parse]: [key=value] pairs separated by [&], without
      percent-encoding;
    - [cookie_parse]: [name=value] pairs separated by [;]. *)

Module Model.

Definition unsupported (c : ascii) : bool :=
  Js.includes c "\$#*?|&;()<>{}`".

Definition snoc (cur : option string) (c : ascii) : option string :=
  Some (default EmptyString cur +:+ String c EmptyString).

Definition emit (cur : option string) (rest : list token) : list token :=
  match cur with
  | Some w => Word w :: rest
  | None => rest
  end.

Fixpoint tokenize (s : string) (cur : option string) (quote : option ascii)
  : result (list token) :=
  match s with
  | EmptyString =>
      match quote with
      | Some _ => Throw LibraryError
      | None => Ok (emit cur [])
      end
  | String c r =>
      match quote with
      | Some q =>
          if Js.ascii_eqb c q then tokenize r cur None
          else if Js.ascii_eqb q Js.DQ && (Js.ascii_eqb c Js.BS || Js.ascii_eqb c "$"%char)
          then Throw LibraryError
          else tokenize r (snoc cur c) quote
      | None =>
          if Js.is_space c then
            let! rest := tokenize r None None in Ok (emit cur rest)
          else if Js.ascii_eqb c Js.SQ || Js.ascii_eqb c Js.DQ then
            tokenize r (Some (default EmptyString cur)) (Some c)
          else if unsupported c then Throw LibraryError
          else tokenize r (snoc cur c) None
      end
  end.

Definition shell_parse (s : string) : result (list token) := tokenize s None None.

Record url_object : Type := MkUrl {
  href : string;
  host : option string;
  query : option string
}.

Definition strip_prefix (p s : string) : option string :=
  if String.prefix p s then Some (Js.drop (String.length p) s) else None.

(** The text before the first character that satisfies [p], and the rest. *)
Fixpoint span_until (p : ascii -> bool) (s : string) : string * string :=
  match s with
  | EmptyString => (EmptyString, EmptyString)
  | String c r =>
      if p c then (EmptyString, s)
      else let '(a, b) := span_until p r in (String c a, b)
  end.

Definition query_of (s : string) : option string :=
  snd <$> Js.break_at "?"%char s.

Definition parse_with_scheme (scheme rest : string) : url_object :=
  let '(h, tail) :=
    span_until (fun c => Js.ascii_eqb c "/"%char || Js.ascii_eqb c "?"%char) rest in
  let path := match tail with
              | String c _ => if Js.ascii_eqb c "/"%char then tail else "/" +:+ tail
              | EmptyString => "/"
              end in
  MkUrl (scheme +:+ h +:+ path) (Some h) (query_of tail).

Definition URL_parse (s : string) : url_object :=
  match strip_prefix "http://" s, strip_prefix "https://" s with
  | Some rest, _ => parse_with_scheme "http://" rest
  | None, Some rest => parse_with_scheme "https://" rest
  | None, None => MkUrl s None (query_of s)
  end.

Definition add_param (ret : gmap string qval) (param : string) : gmap string qval :=
  if Js.truthy param then
    let '(key, value) :=
      match Js.break_at "="%char param with
      | Some (k, v) => (k, Some v)
      | None => (param, None)
      end in
    match ret !! key with
    | None => <[key := match value with Some v => QStr v | None => QNull end]> ret
    | Some QNull => <[key := QArr [None; value]]> ret
    | Some (QStr a) => <[key := QArr [Some a; value]]> ret
    | Some (QArr l) => <[key := QArr (l ++ [value])]> ret
    end
  else ret.

Definition querystring_parse (q : option string) : gmap string qval :=
  match q with
  | Some q => fold_left add_param (Js.split "&"%char q) ∅
  | None => ∅
  end.

Definition add_cookie (ret : gmap string string) (pair : string) : gmap string string :=
  match Js.break_at "="%char pair with
  | Some (k, v) =>
      let key := Js.trim k in
      match ret !! key with
      | None => <[key := Js.trim v]> ret
      | Some _ => ret
      end
  | None => ret
  end.

Definition cookie_parse (s : string) : gmap string string :=
  fold_left add_cookie (Js.split ";"%char s) ∅.

End Model.

Definition ModelLibs : Libs :=
  {| shell_parse := Model.shell_parse;
     UrlObject := Model.url_object;
     URL_parse := fun s => Ok (Model.URL_parse s);
     URL_host := Model.host;
     URL_query := Model.query;
     URL_format := fun u => Ok (Model.href u);
     querystring_parse := fun q => Ok (Model.querystring_parse q);
     cookie_parse := Model.cookie_parse |}.

Definition run (curl : string) : result request := @parseCurlCommand ModelLibs curl.

(** * Vocabulary of the statements *)

(** ** Commands and what [run] returns for them *)

(** The request [run] returns; the empty request when it throws. *)
Definition returned (curl : string) : request :=
  match run curl with
  | Ok r => r
  | Throw _ => empty_request
  end.

Definition accept_example : string := "curl -H 'Accept: text/html' http://example.com".
Definition put_example : string := "curl -X PUT -d a=b http://example.com".

(** ** Strings *)

(** A string without upper-case letter. *)
Definition is_lowercase (s : string) : bool :=
  Js.forallb (fun c => negb (Js.is_upper c)) s.

(** [vs.join(sep)]. *)
Fixpoint join (sep : string) (vs : list string) : string :=
  match vs with
  | [] => EmptyString
  | [v] => v
  | v :: rest => v +:+ sep +:+ join sep rest
  end.

(** ** Flags and arguments *)

#[global] Instance category_eq_dec : EqDecision category.
Proof. solve_decision. Defined.

(** The flags of a category, as [FLAG_CATEGORIES] lists them. *)
Definition flags_of (c : category) : list string :=
  default [] (snd <$> List.find (fun e => bool_decide (fst e = c)) FLAG_CATEGORIES).

(** [toks] mentions one of the flags [ws]. *)
Definition mentions (ws : list string) (toks : list token) : Prop :=
  exists w, w ∈ ws /\ Word w ∈ toks.


Definition data_flags : list string :=
  ["-d"; "--data"; "--data-ascii"; "--data-urlencode"; "--data-raw"; "--data-binary"].

(** The state a flag of the category sets, when it expects a value. *)
Definition expects_value (c : category) : option state :=
  match c with
  | CUserAgent => Some StUserAgent
  | CHeader => Some StHeader
  | CData | CDataRaw | CDataBinary => Some StData
  | CJson => Some StJson
  | CUser => Some StUser
  | CMethod => Some StMethod
  | CCookie => Some StCookie
  | CForm => Some StForm
  | CHead | CCompressed | CInsecure | CQuery => None
  end.

(** What a flag that expects a value does to the request. *)
Definition mark_data_kind (c : category) (req : request) : request :=
  match c with
  | CDataRaw => set_isDataRaw true req
  | CDataBinary => set_isDataBinary true req
  | _ => req
  end.

(** The state in which the arguments [toks], read from the start, leave the
    parser: the last of them is a flag that waits for its value, or there
    is none. *)
Definition pending (toks : list token) : option state :=
  match last toks with
  | Some t => find_category t ≫= expects_value
  | None => None
  end.

(** A value that a flag consumes: a string that is not empty and is not a
    flag. *)
Definition consumable (v : string) : Prop :=
  Js.truthy v = true /\ find_category (Word v) = None.

(** The arguments [f1 v1 ... fn vn]. *)
Definition flag_value_args (pairs : list (string * string)) : list token :=
  flat_map (fun p => [Word (fst p); Word (snd p)]) pairs.


(** ** Invariants of the loop *)

(** [request.data], once set, is never empty. *)
Definition data_ok (req : request) : Prop :=
  match data req with
  | Some d => token_truthy d = true
  | None => True
  end.


(** Without [-X] and [--request] the method is one the parser chose. *)
Definition implicit_method (req : request) : Prop :=
  method req = None \/ method req = Some "HEAD" \/ method req = Some "POST".

(** The method after [postBuildProcessRequest] when there is no data to
    look at. *)
Definition default_method (req : request) : option string :=
  if method_missing req then Some "GET" else method req.

(** Conditions on the parsing state: no condition; no data flag waits for
    its value; no method or form flag does; none that would change the
    method [M]. *)
Definition any_state : option state -> Prop := fun _ => True.

Definition not_data_state (st : option state) : Prop :=
  st <> Some StData /\ st <> Some StJson.




Section Vocabulary.
Context {L : Libs}.

(** An invariant [Q] of the request, with a condition [S] on the parsing
    state, is preserved by the argument [t] when the three things an
    argument can do preserve it: act as a flag, be handled as the value of
    the pending flag, extend the URL. *)
Definition step_ok (Q : request -> Prop) (S : option state -> Prop) (t : token) : Prop :=
  (forall req req1 fs, handleFlag t req = Ok (req1, fs) -> Q req -> Q req1 /\ S fs)
  /\ (forall s req req', S (Some s) -> token_truthy t = true ->
        handleValue t s req = Ok req' -> Q req -> Q req')
  /\ (forall req, Q req -> Q (setURL req t)).

End Vocabulary.

(** ** The two embeddings

    A run on the store, on the object [l], does what the function on
    requests does: it changes no other object and leaves the table of the
    module as it is; it returns the same value with the same request in
    [l], or throws the same exception. *)
Definition simulates {A : Type} (l : Store.loc) (sigma : Store.store)
    (run : result A * Store.store) (pure : result (request * A)) : Prop :=
  Store.agrees_but l sigma (snd run)
  /\ match fst run, pure with
     | Ok a, Ok (r', a') => a = a' /\ Store.heap (snd run) !! l = Some r'
     | Throw e, Throw e' => e = e' /\ is_Some (Store.heap (snd run) !! l)
     | _, _ => False
     end.

(** * Vocabulary of the further properties *)

(** [s.includes(pat)]. *)
Fixpoint contains (pat s : string) {struct s} : bool :=
  String.prefix pat s
  || match s with
     | EmptyString => false
     | String _ r => contains pat r
     end.

(** Every code unit of [s] is below 128. *)
Definition is_ascii (s : string) : bool :=
  Js.forallb (fun c => Nat.ltb (nat_of_ascii c) 128) s.

(** Every white space character of [s] is a plain space. *)
Definition single_line (s : string) : bool :=
  Js.forallb (fun c => negb (Js.is_space c) || Js.ascii_eqb c " ") s.

Definition starts_with_space (s : string) : bool :=
  match s with
  | String c _ => Js.is_space c
  | EmptyString => false
  end.

Fixpoint ends_with_space (s : string) : bool :=
  match s with
  | EmptyString => false
  | String c EmptyString => Js.is_space c
  | String _ r => ends_with_space r
  end.

(** An argument that is a string. *)
Definition is_word (t : token) : bool :=
  match t with Word _ => true | _ => false end.

(** The first character of [s] is [c]. *)
Definition first_is (c : ascii) (s : string) : bool :=
  match s with
  | String d _ => Js.ascii_eqb d c
  | EmptyString => false
  end.

(** [s] between double quotes. *)
Definition quoted (s : string) : string :=
  String Js.DQ (s +:+ String Js.DQ EmptyString).

(** The texts [ss] one after the other. *)
Fixpoint concat_all (ss : list string) : string :=
  match ss with
  | [] => EmptyString
  | s :: rest => s +:+ concat_all rest
  end.

(** The URL collected so far, as a text. *)
Definition url_text (req : request) : string :=
  match url req with
  | Some u => u
  | None => EmptyString
  end.

(** [urlWithoutQuery] follows [url]: it is the part of the URL before the
    first question mark, and a URL that is set is not empty. *)
Definition url_consistent (req : request) : Prop :=
  match url req with
  | Some u => Js.truthy u = true /\ urlWithoutQuery req = head (Js.split "?" u)
  | None => urlWithoutQuery req = None
  end.

Section MoreVocabulary.
Context {L : Libs}.

(** The argument [t], met when no flag waits for a value, adds the text
    [s] to the URL. *)
Definition url_piece (t : token) (s : string) : Prop :=
  find_category t = None
  /\ isURLOrFragment t = Ok true
  /\ getUrlString t = Some s
  /\ Js.truthy s = true.

End MoreVocabulary.

(** * Properties *)

(** ** The parser on some inputs *)

Example cleanCurlCommand_joins_lines :
  cleanCurlCommand "curl -XPOST \
    $'http://example.com/api' \
    -d 'it\'s'"
  = "curl -X POST 'http://example.com/api' -d 'it'\''s'".
Proof. vm_compute. reflexivity. Qed.

Example split_header_examples :
  split_header "Content-Type: application/json" = ("Content-Type", Some "application/json")
  /\ split_header "a: b: c" = ("a", Some "b: c")
  /\ split_header "X-Empty:" = ("X-Empty:", None).
Proof. repeat split. Qed.

Example parseFormField_examples :
  parseFormField "file=@/tmp/a.txt" = Some (MkUpload "file" "/tmp/a.txt" "file" true)
  /\ parseFormField "name=John" = Some (MkUpload "name" "John" "text" true)
  /\ parseFormField "name=" = Some (MkUpload "name" EmptyString "text" true)
  /\ parseFormField "x=a@b" = None
  /\ parseFormField "novalue" = None.
Proof. repeat split. Qed.

Example run_post_example :
  exists r,
    run "curl -XPOST 'http://example.com/api' -H 'Accept: text/html' --data-raw x -k"
    = Ok r
    /\ method r = Some "post"
    /\ url r = Some "http://example.com/api"
    /\ headers r = Some {[ "Accept" := Some (Word "text/html") ]}
    /\ data r = Some (Word "x")
    /\ isDataRaw r = true
    /\ insecure r = true.
Proof.
  eexists. repeat (split; [vm_compute; reflexivity|]). vm_compute. reflexivity.
Qed.

Example store_run_put_example :
  Store.returned (@Store.parseCurlCommand ModelLibs put_example Store.init)
  = run put_example
  /\ fst (@Store.parseCurlCommand ModelLibs put_example Store.init) = Ok 0.
Proof. split; vm_compute; reflexivity. Qed.

(** ** Case mapping *)

Lemma char_toLowerCase_not_upper (c : ascii) :
  Js.is_upper (Js.char_toLowerCase c) = false.
Proof.
  destruct c as [[] [] [] [] [] [] [] []]; vm_compute; reflexivity.
Qed.

Lemma toLowerCase_is_lowercase (s : string) :
  is_lowercase (Js.toLowerCase s) = true.
Proof.
  induction s as [|c s IH]; [reflexivity|].
  cbn. rewrite char_toLowerCase_not_upper. exact IH.
Qed.

Lemma toLowerCase_idempotent (s : string) :
  Js.toLowerCase (Js.toLowerCase s) = Js.toLowerCase s.
Proof.
  induction s as [|c s IH]; [reflexivity|].
  cbn. f_equal; [|exact IH].
  unfold Js.char_toLowerCase at 1. now rewrite char_toLowerCase_not_upper.
Qed.


(** ** The flag table *)

Lemma find_category_flag (c : category) (w : string) :
  w ∈ flags_of c -> find_category (Word w) = Some c.
Proof.
  destruct c; cbn; intros H;
    repeat (apply elem_of_cons in H as [->|H]; [reflexivity|]);
    inversion H.
Qed.

Lemma find_category_Some (t : token) (c : category) :
  find_category t = Some c -> exists w, t = Word w /\ w ∈ flags_of c.
Proof.
  destruct t as [w| | |]; try discriminate.
  intros H. exists w. split; [reflexivity|].
  unfold find_category in H. cbn in H.
  repeat (case_bool_decide as Hw;
          [ cbn in H; injection H as <-; exact Hw | clear Hw ]).
  discriminate H.
Qed.

(** ** The loop of [buildRequest] *)

Arguments find_category : simpl never.

Lemma bind_Ok {A B : Type} (m : result A) (k : A -> result B) (b : B) :
  bind m k = Ok b -> exists a, m = Ok a /\ k a = Ok b.
Proof. destruct m as [a|e]; cbn; [eauto | discriminate]. Qed.

Ltac frame_solve :=
  unfold setData, setAuth, setURL, updateUrlWithoutQuery;
  repeat case_match; reflexivity.

Create Rewrite HintDb frame.

(** The state kept for the next argument is the one the current argument
    sets: any argument that is not a flag expecting a value clears it. *)
Lemma next_state_eq (currentState newState : option state) :
  next_state currentState newState = newState.
Proof. destruct currentState, newState; reflexivity. Qed.

(** Unfold one call of [handleFlag], and of [handleValue], into the cases
    of the code. *)
Ltac flag_cases H :=
  unfold handleFlag in H;
  let Hc := fresh "Hcat" in
  destruct (find_category _) as [[]|] eqn:Hc; cbn in H;
  unfold headers_set, bind in H;
  repeat case_match; simplify_eq; cbn in *.

Ltac value_cases H :=
  unfold handleValue, setHeader, setUserAgent, setJsonData, setFormData,
    setMethod, setCookie, headers_set, bind in H;
  repeat case_match; simplify_eq; cbn in *;
  autorewrite with frame in *.

(** What [setData], [setAuth] and [setURL] leave as it is. *)
Lemma headers_setData req v : headers (setData req v) = headers req.
Proof. frame_solve. Qed.
Lemma method_setData req v : method (setData req v) = method req.
Proof. frame_solve. Qed.
Lemma isQuery_setData req v : isQuery (setData req v) = isQuery req.
Proof. frame_solve. Qed.
Lemma url_setData req v : url (setData req v) = url req.
Proof. frame_solve. Qed.
Lemma headers_setAuth req v : headers (setAuth req v) = headers req.
Proof. frame_solve. Qed.
Lemma method_setAuth req v : method (setAuth req v) = method req.
Proof. frame_solve. Qed.
Lemma data_setAuth req v : data (setAuth req v) = data req.
Proof. frame_solve. Qed.
Lemma isQuery_setAuth req v : isQuery (setAuth req v) = isQuery req.
Proof. frame_solve. Qed.
Lemma url_setAuth req v : url (setAuth req v) = url req.
Proof. frame_solve. Qed.
Lemma headers_setURL req v : headers (setURL req v) = headers req.
Proof. frame_solve. Qed.
Lemma method_setURL req v : method (setURL req v) = method req.
Proof. frame_solve. Qed.
Lemma data_setURL req v : data (setURL req v) = data req.
Proof. frame_solve. Qed.
Lemma isQuery_setURL req v : isQuery (setURL req v) = isQuery req.
Proof. frame_solve. Qed.

#[global] Hint Rewrite headers_setData method_setData isQuery_setData url_setData headers_setAuth method_setAuth data_setAuth isQuery_setAuth url_setAuth headers_setURL method_setURL data_setURL isQuery_setURL : frame.

(** Turns the tests on [request.method] into equations. *)
Ltac bool_hyps :=
  repeat match goal with
         | H : _ || _ = true |- _ => apply orb_true_iff in H as [H|H]
         | H : _ || _ = false |- _ => apply orb_false_iff in H as [? ?]
         | H : bool_decide _ = true |- _ => apply bool_decide_eq_true in H
         | H : bool_decide _ = false |- _ => apply bool_decide_eq_false in H
         end.

Section Loop.
Context {L : Libs}.

Lemma run_args_app (l1 l2 : list token) (st : option state) (req : request) :
  run_args (l1 ++ l2) st req =
  let! p := run_args l1 st req in run_args l2 (snd p) (fst p).
Proof.
  revert st req. induction l1 as [|a l1 IH]; intros st req; [reflexivity|].
  cbn. destruct (processArgument a st req) as [pr|e]; cbn; [apply IH | reflexivity].
Qed.

Lemma run_args_one (t : token) (st : option state) (req : request) :
  run_args [t] st req =
  let! pr := processArgument t st req in Ok (fst pr, next_state st (snd pr)).
Proof. cbn. destruct (processArgument t st req); reflexivity. Qed.

Lemma processArgument_preserves Q S t st req pr :
  step_ok Q S t -> Q req -> S st ->
  processArgument t st req = Ok pr -> Q (fst pr) /\ S (snd pr).
Proof.
  intros (Hflag & Hvalue & Hurl) HQ HS H.
  unfold processArgument in H. apply bind_Ok in H as ([req1 fs] & Hf & H).
  destruct (Hflag _ _ _ Hf HQ) as [HQ1 HS1]. cbn in H.
  destruct fs as [s|]; [injection H as <-; auto|].
  destruct st as [s|].
  - destruct (token_truthy t) eqn:Ht.
    + apply bind_Ok in H as (req2 & Hv & H). injection H as <-. cbn. eauto.
    + injection H as <-. auto.
  - apply bind_Ok in H as (b & _ & H). injection H as <-.
    destruct b; cbn; auto.
Qed.

Lemma run_args_preserves Q S toks :
  (forall t, t ∈ toks -> step_ok Q S t) ->
  forall st req res,
    Q req -> S st -> run_args toks st req = Ok res -> Q (fst res) /\ S (snd res).
Proof.
  induction toks as [|a toks IH]; intros Hstep st req res HQ HS Hrun.
  - cbn in Hrun. injection Hrun as <-. auto.
  - cbn in Hrun. apply bind_Ok in Hrun as (pr & Hpr & Hrun).
    rewrite next_state_eq in Hrun.
    eapply processArgument_preserves in Hpr as [HQ1 HS1];
      [ | apply Hstep; left | exact HQ | exact HS ].
    eapply IH; [| exact HQ1 | exact HS1 | exact Hrun].
    intros t Hin. apply Hstep. now right.
Qed.

(** [request.headers] stays an object during the loop. *)
Lemma headers_step t : step_ok (fun r => is_Some (headers r)) any_state t.
Proof.
  split; [|split].
  - intros req req1 fs H [h Hh]. split; [|exact I]. flag_cases H; eauto.
  - intros s req req' _ _ H [h Hh]. destruct s; value_cases H; eauto.
  - intros req H. autorewrite with frame. exact H.
Qed.

Lemma run_args_headers toks st req res :
  is_Some (headers req) -> run_args toks st req = Ok res ->
  is_Some (headers (fst res)).
Proof.
  intros Hh Hrun.
  eapply (run_args_preserves _ any_state) in Hrun as [H _];
    [exact H | intros; apply headers_step | exact Hh | exact I].
Qed.

Lemma append_truthy (a b : string) : Js.truthy (a +:+ "&" +:+ b) = true.
Proof. destruct a; reflexivity. Qed.

Lemma setData_data_ok req v :
  token_truthy v = true -> data_ok (setData req v).
Proof.
  intros Hv. unfold data_ok, setData.
  repeat case_match; simplify_eq; cbn in *; simplify_eq;
    try apply append_truthy; try exact Hv; try exact I.
Qed.

Lemma data_ok_step t : step_ok data_ok any_state t.
Proof.
  split; [|split].
  - intros req req1 fs H Hd. split; [|exact I]. flag_cases H; assumption.
  - intros s req req' _ Ht H Hd.
    destruct s; value_cases H; try (apply setData_data_ok; assumption);
      unfold data_ok in *; cbn in *; autorewrite with frame; assumption.
  - intros req Hd. unfold data_ok in *. autorewrite with frame. assumption.
Qed.

Lemma run_args_data_ok toks st req res :
  data_ok req -> run_args toks st req = Ok res -> data_ok (fst res).
Proof.
  intros Hd Hrun.
  eapply (run_args_preserves _ any_state) in Hrun as [H _];
    [exact H | intros; apply data_ok_step | exact Hd | exact I].
Qed.

(** Properties that, once set, stay. *)
Lemma isQuery_step t : step_ok (fun r => isQuery r = true) any_state t.
Proof.
  split; [|split].
  - intros req req1 fs H Hq. split; [|exact I].
    flag_cases H; first [assumption | reflexivity].
  - intros s req req' _ _ H Hq. destruct s; value_cases H; assumption.
  - intros req H. autorewrite with frame. exact H.
Qed.

Lemma url_step t : step_ok (fun r => is_Some (url r)) any_state t.
Proof.
  split; [|split].
  - intros req req1 fs H Hq. split; [|exact I]. flag_cases H; assumption.
  - intros s req req' _ _ H Hq. destruct s; value_cases H; assumption.
  - intros req H. unfold setURL, updateUrlWithoutQuery.
    repeat case_match; cbn in *; simplify_eq; eauto.
Qed.


Lemma run_args_isQuery toks st req res :
  isQuery req = true -> run_args toks st req = Ok res -> isQuery (fst res) = true.
Proof.
  intros Hq Hrun.
  eapply (run_args_preserves _ any_state) in Hrun as [H _];
    [exact H | intros; apply isQuery_step | exact Hq | exact I].
Qed.

Lemma run_args_url toks st req res :
  is_Some (url req) -> run_args toks st req = Ok res -> is_Some (url (fst res)).
Proof.
  intros Hu Hrun.
  eapply (run_args_preserves _ any_state) in Hrun as [H _];
    [exact H | intros; apply url_step | exact Hu | exact I].
Qed.


(** What the flags that are absent cannot do. *)
Lemma no_query_step t :
  find_category t <> Some CQuery ->
  step_ok (fun r => isQuery r = false) any_state t.
Proof.
  intros Hn. split; [|split].
  - intros req req1 fs H Hq. split; [|exact I].
    flag_cases H; first [assumption | congruence].
  - intros s req req' _ _ H Hq. destruct s; value_cases H; assumption.
  - intros req H. autorewrite with frame. exact H.
Qed.

Lemma no_data_step t :
  find_category t <> Some CData -> find_category t <> Some CJson ->
  find_category t <> Some CDataRaw -> find_category t <> Some CDataBinary ->
  step_ok (fun r => data r = None) not_data_state t.
Proof.
  intros H1 H2 H3 H4. unfold not_data_state. split; [|split].
  - intros req req1 fs H Hd. flag_cases H; repeat split; congruence.
  - intros s req req' [Hs1 Hs2] _ H Hd.
    destruct s; value_cases H; congruence.
  - intros req H. autorewrite with frame. exact H.
Qed.


Lemma implicit_method_step t :
  find_category t <> Some CMethod ->
  step_ok implicit_method (fun st => st <> Some StMethod) t.
Proof.
  intros H1. unfold implicit_method. split; [|split].
  - intros req req1 fs H Hd. flag_cases H; (split; [|congruence]); cbn; auto.
  - intros s req req' Hs _ H Hd.
    destruct s; value_cases H; try congruence; cbn; auto.
  - intros req H. autorewrite with frame. exact H.
Qed.

End Loop.

(** ** From the flags of a command to the categories of its arguments *)

Lemma absent_category (ws : list string) (toks : list token) (t : token) (c : category) :
  ~ mentions ws toks -> t ∈ toks -> flags_of c ⊆ ws -> find_category t <> Some c.
Proof.
  intros Hn Hin Hsub Hc. apply find_category_Some in Hc as (w & -> & Hw).
  apply Hn. exists w. split; [apply Hsub, Hw | exact Hin].
Qed.

Ltac flags_subset :=
  let x := fresh "x" in
  let Hx := fresh "Hx" in
  cbn; intros x Hx;
  repeat (apply elem_of_cons in Hx as [->|Hx]; [solve [repeat constructor]|]);
  inversion Hx.

Section Pipeline.
Context {L : Libs}.

Lemma buildRequest_Ok toks req :
  buildRequest toks = Ok req <->
  exists st, run_args toks None empty_request = Ok (req, st).
Proof.
  unfold buildRequest. split.
  - intros H. apply bind_Ok in H as ([r st] & Hrun & H).
    injection H as <-. eauto.
  - intros [st H]. rewrite H. reflexivity.
Qed.

(** The four stages of a call that returns. *)
Lemma parseCurlCommand_Ok curl r :
  parseCurlCommand curl = Ok r <->
  exists toks req processed,
    shell_parse (cleanCurlCommand curl) = Ok toks
    /\ buildRequest toks = Ok req
    /\ postBuildProcessRequest req = Ok processed
    /\ normalizeRequest processed = Ok r.
Proof.
  unfold parseCurlCommand. split.
  - intros H. apply bind_Ok in H as (toks & Ht & H).
    apply bind_Ok in H as (req & Hb & H).
    apply bind_Ok in H as (p & Hp & H). eauto 10.
  - intros (toks & req & p & Ht & Hb & Hp & Hn).
    rewrite Ht. cbn. rewrite Hb. cbn. rewrite Hp. exact Hn.
Qed.

(** The method that [normalizeRequest] returns. *)
Lemma normalizeRequest_Ok req r :
  normalizeRequest req = Ok r ->
  exists m, method req = Some m /\ method r = Some (Js.toLowerCase m)
    /\ headers r = (if headers_isEmpty req then None else headers req)
    /\ url r = url req /\ data r = data req /\ query r = query req
    /\ auth r = auth req /\ multipartUploads r = multipartUploads req.
Proof.
  unfold normalizeRequest. destruct (method req) as [m|] eqn:Hm; [|discriminate].
  intros H. injection H as <-. exists m.
  assert (headers_isEmpty (set_method (Some (Js.toLowerCase m)) req)
          = headers_isEmpty req) as -> by reflexivity.
  destruct (headers_isEmpty req); cbn; auto 10.
Qed.

(** What [postBuildProcessRequest] does not touch. *)
Lemma postBuildProcessRequest_frame req r :
  postBuildProcessRequest req = Ok r ->
  headers r = headers req /\ auth r = auth req
  /\ multipartUploads r = multipartUploads req.
Proof.
  unfold postBuildProcessRequest, convertDataToQueryString, bind.
  intros H. repeat case_match; simplify_eq; cbn; auto.
Qed.
End Pipeline.

(** ** One argument at a time *)

Section Steps.
Context {L : Libs}.

Lemma processArgument_value_flag t c s st req :
  find_category t = Some c -> expects_value c = Some s ->
  processArgument t st req = Ok (mark_data_kind c req, Some s).
Proof.
  intros Hc Hs. unfold processArgument, handleFlag. rewrite Hc.
  destruct c; cbn in Hs; simplify_eq; reflexivity.
Qed.

Lemma processArgument_value t s req :
  find_category t = None -> token_truthy t = true ->
  processArgument t (Some s) req =
  let! r := handleValue t s req in Ok (r, None).
Proof.
  intros Hc Ht. unfold processArgument, handleFlag. rewrite Hc. cbn.
  rewrite Ht. reflexivity.
Qed.

Lemma processArgument_empty t s req :
  find_category t = None -> token_truthy t = false ->
  processArgument t (Some s) req = Ok (req, None).
Proof.
  intros Hc Ht. unfold processArgument, handleFlag. rewrite Hc. cbn.
  rewrite Ht. reflexivity.
Qed.

Lemma processArgument_idle t req :
  find_category t = None ->
  processArgument t None req =
  let! url_like := isURLOrFragment t in
  Ok (if url_like then setURL req t else req, None).
Proof.
  intros Hc. unfold processArgument, handleFlag. rewrite Hc. reflexivity.
Qed.

Lemma flag_truthy t c : find_category t = Some c -> token_truthy t = true.
Proof.
  intros Hc. apply find_category_Some in Hc as (w & -> & Hw).
  destruct c; cbn in Hw;
    repeat (apply elem_of_cons in Hw as [->|Hw]; [reflexivity|]);
    inversion Hw.
Qed.

(** A flag that expects no value, met when another flag waits for its
    value, acts and is then handled as that value. *)
Lemma processArgument_immediate_flag t c s req :
  find_category t = Some c -> expects_value c = None ->
  processArgument t (Some s) req =
  let! fr := handleFlag t req in
  let! r := handleValue t s (fst fr) in Ok (r, None).
Proof.
  intros Hc He. unfold processArgument.
  destruct (handleFlag t req) as [[req1 fs]|e] eqn:Hf; [|reflexivity].
  cbn [bind fst snd].
  assert (fs = None) as ->.
  { unfold handleFlag in Hf. rewrite Hc in Hf.
    destruct c; cbn in He, Hf; try discriminate He;
      unfold headers_set, bind in Hf; repeat case_match; simplify_eq; reflexivity. }
  now rewrite (flag_truthy _ _ Hc).
Qed.

(** A flag and its value, in two steps of the loop. *)
Lemma run_args_flag_value f c s v rest st req :
  find_category (Word f) = Some c -> expects_value c = Some s ->
  find_category v = None -> token_truthy v = true ->
  run_args (Word f :: v :: rest) st req =
  let! r := handleValue v s (mark_data_kind c req) in run_args rest None r.
Proof.
  intros Hf Hs Hv Ht. cbn [run_args].
  rewrite (processArgument_value_flag _ _ _ _ _ Hf Hs). cbn.
  rewrite next_state_eq, (processArgument_value _ _ _ Hv Ht).
  destruct (handleValue v s (mark_data_kind c req)); reflexivity.
Qed.

(** What an argument does is what its flag does, followed by nothing, by
    the handling of a value, or by an extension of the URL. *)
Lemma processArgument_stages t st req pr :
  processArgument t st req = Ok pr ->
  exists req1 fs,
    handleFlag t req = Ok (req1, fs)
    /\ (fst pr = req1
        \/ (exists s, token_truthy t = true /\ handleValue t s req1 = Ok (fst pr))
        \/ fst pr = setURL req1 t).
Proof.
  unfold processArgument. intros H.
  apply bind_Ok in H as ([req1 fs] & Hf & H). exists req1, fs.
  split; [exact Hf|]. cbn in H.
  destruct fs; [injection H as <-; auto|].
  destruct st as [s|].
  - destruct (token_truthy t) eqn:Ht.
    + apply bind_Ok in H as (r & Hv & H). injection H as <-. eauto.
    + injection H as <-. auto.
  - apply bind_Ok in H as (b & _ & H). injection H as <-.
    destruct b; auto.
Qed.

(** The query flag is remembered up to the end of the loop. *)
Lemma run_args_query_flag toks st req res :
  mentions ["-G"; "--get"] toks ->
  run_args toks st req = Ok res -> isQuery (fst res) = true.
Proof.
  intros (w & Hw & Hin) Hrun.
  apply list_elem_of_split in Hin as (l1 & l2 & ->).
  rewrite run_args_app in Hrun. apply bind_Ok in Hrun as ([r1 s1] & _ & Hrun).
  cbn in Hrun. apply bind_Ok in Hrun as (pr & Hpr & Hrun).
  apply run_args_isQuery in Hrun; [exact Hrun|].
  assert (find_category (Word w) = Some CQuery) as Hc
    by (apply find_category_flag; exact Hw).
  apply processArgument_stages in Hpr as (req1 & fs & Hf & Hstage).
  assert (isQuery req1 = true) as Hq.
  { unfold handleFlag in Hf. rewrite Hc in Hf. cbn in Hf. now simplify_eq. }
  destruct (isQuery_step (Word w)) as (_ & Hvalue & Hurl).
  destruct Hstage as [-> | [(s & Ht & Hv) | ->]]; eauto.
  eapply Hvalue; [exact I | exact Ht | exact Hv | exact Hq].
Qed.

(** The state an argument leaves is the one its flag sets. *)
Lemma processArgument_state t st req pr :
  processArgument t st req = Ok pr -> snd pr = find_category t ≫= expects_value.
Proof.
  intros H. apply bind_Ok in H as ([req1 fs] & Hf & H).
  assert (fs = find_category t ≫= expects_value) as Hfs.
  { unfold handleFlag in Hf. destruct (find_category t) as [[]|]; cbn in *;
      unfold headers_set, bind in Hf; repeat case_match; simplify_eq; reflexivity. }
  cbn in H. rewrite <- Hfs. unfold bind in H.
  repeat case_match; simplify_eq; reflexivity.
Qed.

Lemma run_args_pending toks req res :
  run_args toks None req = Ok res -> snd res = pending toks.
Proof.
  destruct toks as [|t toks _] using rev_ind; intros Hrun.
  - cbn in Hrun. now injection Hrun as <-.
  - rewrite run_args_app in Hrun. apply bind_Ok in Hrun as ([r1 s1] & _ & Hrun).
    cbn in Hrun. apply bind_Ok in Hrun as (pr & Hpr & Hrun).
    injection Hrun as <-. cbn. rewrite next_state_eq.
    unfold pending. rewrite last_snoc. now apply processArgument_state in Hpr.
Qed.

(** An argument that looks like a URL, met when no flag waits for a
    value, leaves a URL in the request. *)
Lemma run_args_url_token k1 s k2 req res :
  pending k1 = None ->
  find_category (Word s) = None -> Js.truthy s = true ->
  isURLOrFragment (Word s) = Ok true ->
  run_args (k1 ++ Word s :: k2) None req = Ok res ->
  is_Some (url (fst res)).
Proof.
  intros Hk Hc Hs Hu Hrun.
  rewrite run_args_app in Hrun. apply bind_Ok in Hrun as ([r1 s1] & Hk1 & Hrun).
  apply run_args_pending in Hk1. cbn in Hk1, Hrun. rewrite Hk in Hk1. subst s1.
  rewrite (processArgument_idle _ _ Hc), Hu in Hrun. cbn in Hrun.
  apply run_args_url in Hrun; [exact Hrun|].
  unfold setURL. cbn. rewrite Hs. unfold updateUrlWithoutQuery. cbn.
  repeat case_match; cbn; eauto.
Qed.
End Steps.

(** ** The method of the request *)



Section Methods.
Context {L : Libs}.

Lemma postBuildProcessRequest_method req processed :
  postBuildProcessRequest req = Ok processed ->
  method processed =
    if isQuery req && jsval_truthy (data req) then default_method req
    else if jsval_truthy (data req) then
      (if method_missing req || bool_decide (method req = Some "HEAD")
       then Some "POST" else method req)
    else default_method req.
Proof.
  unfold postBuildProcessRequest, convertDataToQueryString, default_method,
    method_missing, bind.
  intros H. repeat case_match; simplify_eq; cbn in *; simplify_eq; cbn in *;
    try congruence; bool_hyps; congruence.
Qed.

Lemma run_args_no_data toks req res :
  ~ mentions (data_flags ++ ["--json"]) toks -> data req = None ->
  run_args toks None req = Ok res -> data (fst res) = None.
Proof.
  intros Hn Hd Hrun.
  eapply (run_args_preserves (fun r => data r = None) not_data_state) in Hrun
    as [H _]; [exact H | | exact Hd | split; discriminate].
  intros t Hin.
  apply no_data_step; eapply absent_category; try exact Hn; try exact Hin;
    flags_subset.
Qed.


Lemma run_args_implicit_method toks req res :
  ~ mentions ["-X"; "--request"] toks -> implicit_method req ->
  run_args toks None req = Ok res -> implicit_method (fst res).
Proof.
  intros Hn Hd Hrun.
  eapply (run_args_preserves implicit_method (fun st => st <> Some StMethod)) in Hrun
    as [H _]; [exact H | | exact Hd | discriminate].
  intros t Hin.
  apply implicit_method_step; eapply absent_category; try exact Hn; try exact Hin;
    flags_subset.
Qed.

Lemma run_args_no_query toks st req res :
  ~ mentions ["-G"; "--get"] toks -> isQuery req = false ->
  run_args toks st req = Ok res -> isQuery (fst res) = false.
Proof.
  intros Hn Hd Hrun.
  eapply (run_args_preserves (fun r => isQuery r = false) any_state) in Hrun
    as [H _]; [exact H | | exact Hd | exact I].
  intros t Hin.
  apply no_query_step; eapply absent_category; try exact Hn; try exact Hin;
    flags_subset.
Qed.


End Methods.

(** ** Credentials and data *)

Arguments Js.ascii_eqb : simpl never.

Lemma append_empty (s : string) : EmptyString +:+ s = s.
Proof. reflexivity. Qed.

Lemma append_String (c : ascii) (a s : string) :
  String c a +:+ s = String c (a +:+ s).
Proof. reflexivity. Qed.

Lemma split_at_separator (c : ascii) (a b : string) :
  Js.includes c a = false ->
  Js.split c (a +:+ String c b) = a :: Js.split c b.
Proof.
  induction a as [|d a IH];
    rewrite ?append_empty, ?append_String; cbn [Js.split Js.includes Js.existsb];
    intros H.
  - unfold Js.ascii_eqb. now rewrite Ascii.eqb_refl.
  - apply orb_false_iff in H as [Hd Ha]. unfold Js.ascii_eqb in *.
    rewrite Ascii.eqb_sym, Hd. fold (Js.includes c a) in Ha. now rewrite (IH Ha).
Qed.

Lemma split_no_separator (c : ascii) (a : string) :
  Js.includes c a = false -> Js.split c a = [a].
Proof.
  induction a as [|d a IH]; cbn [Js.split Js.includes Js.existsb];
    intros H; [reflexivity|].
  apply orb_false_iff in H as [Hd Ha]. unfold Js.ascii_eqb in *.
  rewrite Ascii.eqb_sym, Hd. fold (Js.includes c a) in Ha. now rewrite (IH Ha).
Qed.

Lemma append_assoc (a b c : string) : (a +:+ b) +:+ c = a +:+ b +:+ c.
Proof.
  induction a as [|x a IH]; [reflexivity|].
  rewrite !append_String. now rewrite IH.
Qed.

Lemma join_merge (a b : string) (l : list string) :
  join "&" ((a +:+ "&" +:+ b) :: l) = join "&" (a :: b :: l).
Proof.
  destruct l as [|c l]; [reflexivity|].
  cbn [join]. now rewrite !append_assoc.
Qed.

Lemma data_flag_category (f : string) :
  f ∈ data_flags ->
  exists c, find_category (Word f) = Some c /\ expects_value c = Some StData.
Proof.
  intros Hf. cbn in Hf.
  repeat (apply elem_of_cons in Hf as [->|Hf];
          [eexists; split; reflexivity|]).
  inversion Hf.
Qed.

Section Data.
Context {L : Libs}.

Lemma data_of_mark_data_kind c req : data (mark_data_kind c req) = data req.
Proof. destruct c; reflexivity. Qed.

(** Data flags with their values, met when the request has data [d0]. *)
Lemma run_args_more_data (pairs : list (string * string)) :
  Forall (fun p => fst p ∈ data_flags /\ consumable (snd p)) pairs ->
  forall st req d0,
    data req = Some (Word d0) -> Js.truthy d0 = true ->
    exists req' st',
      run_args (flag_value_args pairs) st req = Ok (req', st')
      /\ data req' = Some (Word (join "&" (d0 :: (snd <$> pairs))))
      /\ (pairs <> [] -> st' = None).
Proof.
  induction 1 as [|[f v] pairs (Hf & Hv & Hc) _ IH]; intros st req d0 Hd Hd0.
  - exists req, st. repeat split; [exact Hd | congruence].
  - change (flag_value_args ((f, v) :: pairs))
      with (Word f :: Word v :: flag_value_args pairs).
    cbn [fst snd] in Hf, Hv, Hc.
    apply data_flag_category in Hf as (c & Hfc & Hs).
    rewrite (run_args_flag_value f c StData (Word v) _ st req Hfc Hs Hc Hv).
    cbn [handleValue bind].
    destruct (IH None (setData (mark_data_kind c req) (Word v))
                (d0 +:+ "&" +:+ v)) as (req' & st' & Hrun & Hdata & Hst).
    + unfold setData. rewrite data_of_mark_data_kind, Hd. cbn. now rewrite Hd0.
    + apply append_truthy.
    + exists req', (if decide (pairs = []) then None else st').
      rewrite Hrun. rewrite Hdata, join_merge. cbn [fmap list_fmap snd].
      destruct pairs as [|p pairs].
      * cbn in Hrun. injection Hrun as <- <-. repeat split.
      * rewrite Hst by discriminate. repeat split.
Qed.
End Data.

Lemma append_empty_r (s : string) : s +:+ EmptyString = s.
Proof. induction s as [|c s IH]; [reflexivity|]. now rewrite append_String, IH. Qed.


Lemma truthy_append_l (a b : string) : Js.truthy a = true -> Js.truthy (a +:+ b) = true.
Proof. destruct a; [discriminate | reflexivity]. Qed.

(** ** Data moved to the query string *)

Section Query.
Context {L : Libs}.

Lemma setURL_text req t s :
  getUrlString t = Some s -> Js.truthy s = true ->
  url (setURL req t) = Some (url_text req +:+ s).
Proof.
  intros Hg Hs. unfold setURL, url_text. rewrite Hg, Hs.
  unfold updateUrlWithoutQuery. cbn [url set_url].
  destruct (url req) as [u|]; [destruct u as [|c u]|]; cbn [Js.truthy];
    rewrite ?append_empty;
    match goal with |- context [Js.truthy ?x] => destruct (Js.truthy x) end;
    reflexivity.
Qed.






End Query.

(** ** The parser on the store *)

Section OnTheStore.
Context {L : Libs}.

Lemma agrees_but_refl l sigma : Store.agrees_but l sigma sigma.
Proof. split; [reflexivity | auto]. Qed.

Lemma agrees_but_trans l s1 s2 s3 :
  Store.agrees_but l s1 s2 -> Store.agrees_but l s2 s3 -> Store.agrees_but l s1 s3.
Proof.
  intros [Ht1 Hh1] [Ht2 Hh2]. split; [congruence|].
  intros l' Hl. now rewrite (Hh2 l' Hl), (Hh1 l' Hl).
Qed.

Lemma agrees_but_set_object l r sigma :
  Store.agrees_but l sigma (Store.set_object l r sigma).
Proof.
  split; [reflexivity|]. intros l' Hl. cbn. apply lookup_insert_ne. congruence.
Qed.

Lemma heap_set_object l r sigma :
  Store.heap (Store.set_object l r sigma) !! l = Some r.
Proof. apply lookup_insert_eq. Qed.

Lemma in_place_simulates l f sigma r :
  Store.heap sigma !! l = Some r ->
  simulates l sigma (Store.in_place l f sigma) (let! r' := f r in Ok (r', tt)).
Proof.
  intros Hl. unfold Store.in_place, Store.mbind, Store.read, Store.lift, Store.write.
  rewrite Hl. destruct (f r) as [r'|e]; cbn [bind].
  - split; [apply agrees_but_set_object|]. cbn. split; [reflexivity|].
    apply lookup_insert_eq.
  - split; [apply agrees_but_refl|]. cbn. rewrite Hl. eauto.
Qed.

Lemma handleFlag_simulates arg l sigma r :
  Store.flag_categories sigma = FLAG_CATEGORIES ->
  Store.heap sigma !! l = Some r ->
  simulates l sigma (Store.handleFlag arg l sigma) (handleFlag arg r).
Proof.
  intros Ht Hl.
  unfold Store.handleFlag, Store.mbind, Store.read_FLAG_CATEGORIES, handleFlag.
  rewrite Ht. change (Store.find_category_in FLAG_CATEGORIES arg) with (find_category arg).
  destruct (find_category arg) as [cat|].
  - unfold Store.handleFlagCategory, Store.mbind, Store.read, Store.lift, Store.write,
      Store.ret.
    rewrite Hl. destruct (handleFlagCategory cat arg r) as [[r1 fs]|e].
    + split; [apply agrees_but_set_object|]. cbn. split; [reflexivity|].
      apply lookup_insert_eq.
    + split; [apply agrees_but_refl|]. cbn. rewrite Hl. eauto.
  - split; [apply agrees_but_refl|]. cbn. auto.
Qed.

Lemma processArgument_simulates arg st l sigma r :
  Store.flag_categories sigma = FLAG_CATEGORIES ->
  Store.heap sigma !! l = Some r ->
  simulates l sigma (Store.processArgument arg st l sigma) (processArgument arg st r).
Proof.
  intros Ht Hl. unfold Store.processArgument, Store.mbind, processArgument.
  destruct (handleFlag_simulates arg l sigma r Ht Hl) as [Hag Hsim].
  destruct (Store.handleFlag arg l sigma) as [[fs|e] sigma1];
    destruct (handleFlag arg r) as [[r1 fs']|e']; cbn [fst snd bind] in *;
    try contradiction.
  2: { split; [exact Hag | exact Hsim]. }
  destruct Hsim as [<- Hl1]. destruct fs as [s|].
  { split; [exact Hag|]. cbn. auto. }
  destruct st as [s|].
  - destruct (token_truthy arg).
    + unfold Store.handleValue.
      destruct (in_place_simulates l (handleValue arg s) sigma1 r1 Hl1) as [Hag2 Hsim2].
      destruct (Store.in_place l (handleValue arg s) sigma1) as [[[]|e] sigma2];
        destruct (handleValue arg s r1) as [r2|e2]; cbn [fst snd bind] in *;
        try contradiction;
        (split; [exact (agrees_but_trans _ _ _ _ Hag Hag2)|]); cbn.
      * destruct Hsim2 as [_ H]. auto.
      * exact Hsim2.
    + split; [exact Hag|]. cbn. auto.
  - unfold Store.lift. destruct (isURLOrFragment arg) as [[]|e]; cbn [bind].
    + unfold Store.setURL.
      destruct (in_place_simulates l (fun r => Ok (setURL r arg)) sigma1 r1 Hl1)
        as [Hag2 Hsim2].
      destruct (Store.in_place l _ sigma1) as [[[]|e] sigma2];
        cbn [fst snd bind] in *; try contradiction.
      split; [exact (agrees_but_trans _ _ _ _ Hag Hag2)|]. cbn.
      destruct Hsim2 as [_ H]. auto.
    + split; [exact Hag|]. cbn. auto.
    + split; [exact Hag|]. cbn. rewrite Hl1. eauto.
Qed.

Lemma run_args_simulates toks :
  forall st l sigma r,
    Store.flag_categories sigma = FLAG_CATEGORIES ->
    Store.heap sigma !! l = Some r ->
    simulates l sigma (Store.run_args toks st l sigma) (run_args toks st r).
Proof.
  induction toks as [|t toks IH]; intros st l sigma r Ht Hl.
  - split; [apply agrees_but_refl|]. cbn. auto.
  - cbn [Store.run_args run_args]. unfold Store.mbind.
    destruct (processArgument_simulates t st l sigma r Ht Hl) as [Hag Hsim].
    destruct (Store.processArgument t st l sigma) as [[fs|e] sigma1];
      destruct (processArgument t st r) as [[r1 fs']|e']; cbn [fst snd bind] in *;
      try contradiction.
    2: { split; [exact Hag | exact Hsim]. }
    destruct Hsim as [<- Hl1].
    assert (Store.flag_categories sigma1 = FLAG_CATEGORIES) as Ht1
      by (destruct Hag as [-> _]; exact Ht).
    destruct (IH (next_state st fs) l sigma1 r1 Ht1 Hl1) as [Hag2 Hsim2].
    split; [exact (agrees_but_trans _ _ _ _ Hag Hag2) | exact Hsim2].
Qed.

(** What a run of [Store.parseCurlCommand] leaves and returns: the table
    of the module and the objects that were there are as before; the
    reference returned is new, and the object behind it is the request
    that [parseCurlCommand] computes from the command; an exception is
    the one [parseCurlCommand] ends with. *)
Lemma parseCurlCommand_on_store curl sigma :
  Store.flag_categories sigma = FLAG_CATEGORIES ->
  let run := Store.parseCurlCommand curl sigma in
  Store.flag_categories (snd run) = Store.flag_categories sigma
  /\ (forall l r, Store.heap sigma !! l = Some r -> Store.heap (snd run) !! l = Some r)
  /\ (forall l, fst run = Ok l ->
        Store.heap sigma !! l = None /\ is_Some (Store.heap (snd run) !! l))
  /\ Store.returned run = parseCurlCommand curl.
Proof.
  intros Ht. cbn zeta.
  unfold Store.parseCurlCommand, parseCurlCommand, Store.mbind, Store.lift.
  destruct (shell_parse (cleanCurlCommand curl)) as [toks|e]; cbn [bind];
    [|repeat split; auto; discriminate].
  unfold Store.buildRequest, buildRequest, Store.mbind, Store.alloc, Store.ret.
  set (l := fresh (dom (Store.heap sigma))).
  assert (Store.heap sigma !! l = None) as Hfresh
    by (apply not_elem_of_dom, is_fresh).
  assert (forall sigma', Store.agrees_but l (Store.set_object l empty_request sigma) sigma' ->
          Store.flag_categories sigma' = Store.flag_categories sigma
          /\ forall l' r, Store.heap sigma !! l' = Some r ->
                          Store.heap sigma' !! l' = Some r) as Hframe.
  { intros sigma' [Hft Hfh]. split; [exact Hft|]. intros l' r Hr.
    assert (l' <> l) as Hne by congruence.
    rewrite (Hfh l' Hne). cbn. rewrite lookup_insert_ne; [exact Hr | congruence]. }
  destruct (run_args_simulates toks None l (Store.set_object l empty_request sigma)
              empty_request Ht (heap_set_object _ _ _)) as [Hag1 Hsim1].
  destruct (Store.run_args toks None l _) as [[fs|e] sigma1];
    destruct (run_args toks None empty_request) as [[r1 fs']|e'];
    cbn [fst snd bind] in *; try contradiction.
  2: { destruct Hsim1 as [-> _]. destruct (Hframe _ Hag1) as [H1 H2].
       repeat split; auto; discriminate. }
  destruct Hsim1 as [_ Hl1].
  unfold Store.postBuildProcessRequest, Store.mbind, Store.ret.
  destruct (in_place_simulates l postBuildProcessRequest sigma1 r1 Hl1) as [Hag2 Hsim2].
  pose proof (agrees_but_trans _ _ _ _ Hag1 Hag2) as Hag12.
  destruct (Store.in_place l postBuildProcessRequest sigma1) as [[[]|e] sigma2];
    destruct (postBuildProcessRequest r1) as [r2|e2];
    cbn [fst snd bind] in *; try contradiction.
  2: { destruct Hsim2 as [-> _]. destruct (Hframe _ Hag12) as [H1 H2].
       repeat split; auto; discriminate. }
  destruct Hsim2 as [_ Hl2].
  unfold Store.normalizeRequest, Store.mbind, Store.ret.
  destruct (in_place_simulates l normalizeRequest sigma2 r2 Hl2) as [Hag3 Hsim3].
  pose proof (agrees_but_trans _ _ _ _ Hag12 Hag3) as Hag123.
  destruct (Store.in_place l normalizeRequest sigma2) as [[[]|e] sigma3];
    destruct (normalizeRequest r2) as [r3|e3];
    cbn [fst snd bind] in *; try contradiction;
    destruct (Hframe _ Hag123) as [H1 H2].
  - destruct Hsim3 as [_ Hl3]. split; [exact H1|]. split; [exact H2|]. split.
    + intros l0 Hl0. injection Hl0 as <-. split; [exact Hfresh | eauto].
    + unfold Store.returned. cbn. now rewrite Hl3.
  - destruct Hsim3 as [-> _]. repeat split; auto; discriminate.
Qed.
End OnTheStore.

(** * The claims about [parseCurlCommand] *)

Section Claims.
Context {L : Libs}.

(** C1.  [parseCurlCommand] does not return on every command: when the
    arguments give the query flag ([-G] or [--get]) and data but no URL,
    [convertDataToQueryString] reads [indexOf] of an undefined
    [request.url] and the call ends with a [TypeError]. *)
Theorem C1_query_flag_without_url_throws (curl : string) (toks : list token)
    (req : request) :
  shell_parse (cleanCurlCommand curl) = Ok toks ->
  buildRequest toks = Ok req ->
  isQuery req = true ->
  jsval_truthy (data req) = true ->
  url req = None ->
  parseCurlCommand curl = Throw TypeError.
Proof.
  intros Ht Hb Hq Hd Hu. unfold parseCurlCommand.
  rewrite Ht. cbn. rewrite Hb. cbn.
  unfold postBuildProcessRequest. rewrite Hq, Hd. cbn.
  unfold convertDataToQueryString. rewrite Hu. reflexivity.
Qed.

(** C2 (amended).  A call that returns gives a flat record that always has
    a method; the headers mapping is part of it exactly when
    [buildRequest] collected at least one header, and then it is the
    collected one: [normalizeRequest] deletes an empty headers object.
    The auth descriptor and the multipart list are returned as
    [buildRequest] collected them. *)
Theorem C2_returned_record (curl : string) (r : request) :
  parseCurlCommand curl = Ok r ->
  is_Some (method r)
  /\ exists toks req h,
      shell_parse (cleanCurlCommand curl) = Ok toks
      /\ buildRequest toks = Ok req
      /\ headers req = Some h
      /\ headers r = (if decide (h = ∅) then None else Some h)
      /\ auth r = auth req
      /\ multipartUploads r = multipartUploads req.
Proof.
  intros H. apply parseCurlCommand_Ok in H as (toks & req & p & Ht & Hb & Hp & Hn).
  apply normalizeRequest_Ok in Hn as (m & Hm & Hmr & Hh & _ & _ & _ & Ha & Hu).
  apply postBuildProcessRequest_frame in Hp as (Hph & Hpa & Hpu).
  split; [rewrite Hmr; eauto|].
  pose proof Hb as Hb'. apply buildRequest_Ok in Hb' as [st Hrun].
  apply run_args_headers in Hrun as [h Hreq]; [|cbn; eauto]. cbn in Hreq.
  exists toks, req, h. repeat split; try assumption; try congruence.
  rewrite Hh. unfold headers_isEmpty. rewrite Hph, Hreq.
  destruct (decide (h = ∅)) as [->|Hne].
  - reflexivity.
  - rewrite bool_decide_eq_false_2; [reflexivity | exact Hne].
Qed.

(** C3.  [parseCurlCommand] keeps no state, and what it returns depends
    on the command only.  A run on the store, in a module whose table of
    flags is as loaded,
    - leaves that table as it was and changes no object that existed:
      all it leaves behind is the new object that it returns;
    - returns an object equal, field by field, to the one that a run on
      an equal command returns, whatever the objects on the heap are
      when that other run starts; when one throws, so does the other,
      with the same exception.
    The imported packages are taken as functions, and the source calls
    no function that reads or writes outside the store. *)
Theorem C3_deterministic (curl1 curl2 : string) (sigma1 sigma2 : Store.store) :
  curl1 = curl2 ->
  Store.flag_categories sigma1 = FLAG_CATEGORIES ->
  let run1 := Store.parseCurlCommand curl1 sigma1 in
  Store.flag_categories (snd run1) = Store.flag_categories sigma1
  /\ (forall l r, Store.heap sigma1 !! l = Some r ->
                  Store.heap (snd run1) !! l = Some r)
  /\ (forall l, fst run1 = Ok l ->
        Store.heap sigma1 !! l = None /\ is_Some (Store.heap (snd run1) !! l))
  /\ (Store.flag_categories sigma2 = Store.flag_categories (snd run1) ->
      Store.returned (Store.parseCurlCommand curl2 sigma2) = Store.returned run1).
Proof.
  intros <- Ht1. cbn zeta.
  destruct (parseCurlCommand_on_store curl1 sigma1 Ht1) as (Htable & Hframe & Hnew & Hret).
  split; [exact Htable|]. split; [exact Hframe|]. split; [exact Hnew|].
  intros Ht2. rewrite Htable, Ht1 in Ht2.
  destruct (parseCurlCommand_on_store curl1 sigma2 Ht2) as (_ & _ & _ & Hret2).
  cbn zeta in Hret, Hret2. now rewrite Hret, Hret2.
Qed.

(** C4 (amended).  [buildRequest] is one pass over the arguments, in
    order, that carries the request and the parsing state.  A flag that
    expects a value sets the state, whatever the state was.  In a state
    set by a flag, an argument that is not a flag resets the state to
    null; it is handled as the value of the flag when it is not the
    empty string, and is skipped when it is.  (A flag that expects no
    value, in that state, acts, is handled as the value too, and resets
    the state.)  With no state, an argument that is not a flag is never
    handled as a value: it can only extend the URL. *)
Theorem C4_state_machine (t : token) (st : option state) (req : request) :
  (forall toks, buildRequest toks =
                let! rs := run_args toks None empty_request in Ok (fst rs))
  /\ (forall l1 l2, run_args (l1 ++ l2) st req =
                    let! p := run_args l1 st req in run_args l2 (snd p) (fst p))
  /\ (forall rest, run_args (t :: rest) st req =
                   let! pr := processArgument t st req in
                   run_args rest (snd pr) (fst pr))
  /\ (forall c s, find_category t = Some c -> expects_value c = Some s ->
                  processArgument t st req = Ok (mark_data_kind c req, Some s))
  /\ (find_category t = None ->
      forall s, processArgument t (Some s) req =
                if token_truthy t
                then let! r := handleValue t s req in Ok (r, None)
                else Ok (req, None))
  /\ (forall c s, find_category t = Some c -> expects_value c = None ->
                  processArgument t (Some s) req =
                  let! fr := handleFlag t req in
                  let! r := handleValue t s (fst fr) in Ok (r, None))
  /\ (find_category t = None ->
      processArgument t None req =
      let! url_like := isURLOrFragment t in
      Ok (if url_like then setURL req t else req, None)).
Proof.
  split; [reflexivity|].
  split; [intros; apply run_args_app|].
  split.
  { intros rest. cbn [run_args].
    destruct (processArgument t st req) as [pr|e]; cbn; [|reflexivity].
    now rewrite next_state_eq. }
  split; [intros c s; apply processArgument_value_flag|].
  split.
  { intros Hc s. destruct (token_truthy t) eqn:Ht.
    - now apply processArgument_value.
    - now apply processArgument_empty. }
  split; [intros c s; apply processArgument_immediate_flag|].
  apply processArgument_idle.
Qed.


(** C6.  What [setAuth] stores for the value of [-u]: the text before the
    first colon as user name; as password the text between the first
    and the second colon, so a password with a colon is cut; the empty
    string when the value has no colon. *)
Theorem C6_setAuth (req : request) (user p1 p2 : string) :
  Js.includes ":" user = false -> Js.includes ":" p1 = false ->
  auth (setAuth req (Word user)) = Some (MkAuth "basic" user EmptyString)
  /\ auth (setAuth req (Word (user +:+ ":" +:+ p1))) = Some (MkAuth "basic" user p1)
  /\ auth (setAuth req (Word (user +:+ ":" +:+ p1 +:+ ":" +:+ p2)))
     = Some (MkAuth "basic" user p1).
Proof.
  intros Hu Hp. unfold setAuth. cbn [auth set_auth].
  change ":"%stdpp with (String ":"%char EmptyString).
  rewrite !append_String, !append_empty.
  rewrite (split_no_separator _ _ Hu).
  rewrite (split_at_separator _ user p1 Hu), (split_no_separator _ _ Hp).
  rewrite (split_at_separator _ user _ Hu), (split_at_separator _ p1 p2 Hp).
  repeat split.
Qed.



(** C9.  Whenever [parseCurlCommand] returns, the request has a method,
    and no letter of it is upper case. *)
Theorem C9_method_lowercase (curl : string) (r : request) :
  parseCurlCommand curl = Ok r ->
  exists m, method r = Some m /\ is_lowercase m = true.
Proof.
  intros H. apply parseCurlCommand_Ok in H as (toks & req & p & _ & _ & _ & Hn).
  apply normalizeRequest_Ok in Hn as (m & _ & Hmr & _).
  exists (Js.toLowerCase m). split; [exact Hmr | apply toLowerCase_is_lowercase].
Qed.
(** C10 (amended).  Data flags [f1 .. fn] ([-d], [--data],
    [--data-ascii], [--data-urlencode], [--data-raw], [--data-binary])
    followed each by a value that is a string, not empty and not a flag,
    leave in a request that had no data the values joined by [&], in the
    order of the flags.  A [--json] flag with such a value replaces the
    data by the value and sets the Content-Type header to
    [application/json]. *)
Theorem C10_data_accumulation (st : option state) (req : request) :
  (forall pairs,
      pairs <> [] ->
      Forall (fun p => fst p ∈ data_flags /\ consumable (snd p)) pairs ->
      data req = None ->
      exists req',
        run_args (flag_value_args pairs) st req = Ok (req', None)
        /\ data req' = Some (Word (join "&" (snd <$> pairs))))
  /\ (forall v h,
        consumable v -> headers req = Some h ->
        exists req' h',
          run_args [Word "--json"; Word v] st req = Ok (req', None)
          /\ data req' = Some (Word v)
          /\ headers req' = Some h'
          /\ h' !! "Content-Type" = Some (Some (Word "application/json"))).
Proof.
  split.
  - intros pairs Hne Hall Hd.
    destruct pairs as [|[f v] pairs]; [congruence|].
    apply Forall_cons in Hall as [(Hf & Hv & Hc) Hall]. cbn [fst snd] in Hf, Hv, Hc.
    change (flag_value_args ((f, v) :: pairs))
      with (Word f :: Word v :: flag_value_args pairs).
    apply data_flag_category in Hf as (c & Hfc & Hs).
    rewrite (run_args_flag_value f c StData (Word v) _ st req Hfc Hs Hc Hv).
    cbn [handleValue bind].
    destruct (run_args_more_data pairs Hall None
                (setData (mark_data_kind c req) (Word v)) v)
      as (req' & st' & Hrun & Hdata & Hst); [| exact Hv |].
    + unfold setData. rewrite data_of_mark_data_kind, Hd. reflexivity.
    + exists req'. rewrite Hrun. split; [|exact Hdata].
      destruct pairs as [|p pairs].
      * cbn in Hrun. injection Hrun as <- <-. reflexivity.
      * now rewrite Hst.
  - intros v h [Hv Hc] Hh.
    rewrite (run_args_flag_value "--json" CJson StJson (Word v) [] st req
               eq_refl eq_refl Hc Hv).
    cbn. unfold setJsonData, headers_set.
    destruct (bool_decide (method req = Some "GET")
              || bool_decide (method req = Some "HEAD")); cbn; rewrite Hh; cbn;
      eexists _, _; repeat split;
      unfold obj_set; cbn; apply lookup_insert_eq.
Qed.
End Claims.

(** ** The claims on concrete commands *)

(** Closes a goal [~ mentions ws toks] on concrete lists. *)
Ltac no_mention :=
  let w := fresh "w" in
  let Hw := fresh "Hw" in
  let Hin := fresh "Hin" in
  intros (w & Hw & Hin); cbn in Hw;
  repeat (apply elem_of_cons in Hw as [-> | Hw];
          [ repeat (apply elem_of_cons in Hin as [Hin | Hin]; [discriminate Hin|]);
            inversion Hin | ]);
  inversion Hw.

(** Closes a goal [w ∈ ws] on concrete lists. *)
Ltac is_member := cbn; solve [repeat constructor].

Lemma C1_query_flag_without_url_throws_witness :
  run "curl -G -d a=b" = Throw TypeError.
Proof.
  apply (@C1_query_flag_without_url_throws ModelLibs "curl -G -d a=b"
           [Word "curl"; Word "-G"; Word "-d"; Word "a=b"]
           (set_data (Some (Word "a=b")) (set_isQuery true empty_request)));
    vm_compute; reflexivity.
Defined.

(** Another command that ends with a [TypeError]: an operator where the
    value of [-H] is expected is an object, and [setHeader] calls [split]
    on it; [setAuth] and [setCookie] check the type of the value. *)
Lemma operator_as_header_value_throws :
  @buildRequest ModelLibs [Word "curl"; Word "-H"; Op "&"; Word "http://example.com"]
  = Throw TypeError.
Proof. vm_compute. reflexivity. Qed.

(** C2, as stated, fails: no headers mapping is returned for a command
    that sets no header. *)
Lemma C2_no_headers_without_header_flag :
  exists r, run "curl http://example.com" = Ok r /\ headers r = None.
Proof. eexists. split; vm_compute; reflexivity. Qed.

Lemma C2_returned_record_witness :
  run accept_example = Ok (returned accept_example)
  /\ is_Some (method (returned accept_example))
  /\ exists toks req h,
        Model.shell_parse (cleanCurlCommand accept_example) = Ok toks
        /\ @buildRequest ModelLibs toks = Ok req
        /\ headers req = Some h
        /\ headers (returned accept_example) = (if decide (h = ∅) then None else Some h)
        /\ auth (returned accept_example) = auth req
        /\ multipartUploads (returned accept_example) = multipartUploads req.
Proof.
  assert (run accept_example = Ok (returned accept_example)) as H
    by (vm_compute; reflexivity).
  split; [exact H|].
  exact (@C2_returned_record ModelLibs accept_example (returned accept_example) H).
Defined.

Lemma C3_deterministic_witness :
  let first := @Store.parseCurlCommand ModelLibs put_example Store.init in
  Store.returned (@Store.parseCurlCommand ModelLibs put_example (snd first))
  = Store.returned first.
Proof.
  cbn zeta.
  destruct (@C3_deterministic ModelLibs put_example put_example Store.init
              (snd (@Store.parseCurlCommand ModelLibs put_example Store.init))
              eq_refl eq_refl) as (_ & _ & _ & H).
  apply H. reflexivity.
Defined.

Lemma C4_state_machine_witness :
  @processArgument ModelLibs (Word "PUT") (Some StMethod) empty_request
  = Ok (set_method (Some "PUT") empty_request, None).
Proof.
  destruct (@C4_state_machine ModelLibs (Word "PUT") (Some StMethod) empty_request)
    as (_ & _ & _ & _ & H & _ & _).
  rewrite (H eq_refl StMethod). reflexivity.
Defined.

(** C4, as stated, fails on an empty argument: after [-H] the empty string
    is not handled as the header, although [setHeader] would store it; no
    header is set and the state is reset. *)
Lemma C4_empty_value_is_skipped :
  find_category (Word EmptyString) = None
  /\ @processArgument ModelLibs (Word EmptyString) (Some StHeader) empty_request
     = Ok (empty_request, None)
  /\ @handleValue ModelLibs (Word EmptyString) StHeader empty_request
     = Ok (set_headers (Some {[ EmptyString := None ]}) empty_request)
  /\ exists r, run "curl -H '' http://example.com" = Ok r /\ headers r = None.
Proof.
  repeat split; try (vm_compute; reflexivity).
  eexists. split; vm_compute; reflexivity.
Qed.



Lemma C6_setAuth_witness :
  auth (setAuth empty_request (Word "user")) = Some (MkAuth "basic" "user" EmptyString)
  /\ auth (setAuth empty_request (Word "user:pa")) = Some (MkAuth "basic" "user" "pa")
  /\ auth (setAuth empty_request (Word "user:pa:ss")) = Some (MkAuth "basic" "user" "pa").
Proof.
  apply (C6_setAuth empty_request "user" "pa" "ss"); vm_compute; reflexivity.
Defined.

(** The same on a whole command: the password [pa:ss] is returned as [pa]. *)
Lemma C6_password_with_colon :
  exists r, run "curl -u user:pa:ss http://example.com" = Ok r
            /\ auth r = Some (MkAuth "basic" "user" "pa").
Proof. eexists. split; vm_compute; reflexivity. Qed.




Lemma C9_method_lowercase_witness :
  run "curl -X PuT http://example.com" = Ok (returned "curl -X PuT http://example.com")
  /\ exists m, method (returned "curl -X PuT http://example.com") = Some m
              /\ is_lowercase m = true.
Proof.
  assert (run "curl -X PuT http://example.com"
          = Ok (returned "curl -X PuT http://example.com")) as H
    by (vm_compute; reflexivity).
  split; [exact H|].
  exact (@C9_method_lowercase ModelLibs _ _ H).
Defined.

Lemma C10_data_accumulation_witness :
  exists req',
    @run_args ModelLibs
      [Word "-d"; Word "a=1"; Word "--data-raw"; Word "b=2"; Word "--data"; Word "c=3"]
      None empty_request = Ok (req', None)
    /\ data req' = Some (Word "a=1&b=2&c=3").
Proof.
  refine (proj1 (@C10_data_accumulation ModelLibs None empty_request)
            [("-d", "a=1"); ("--data-raw", "b=2"); ("--data", "c=3")] _ _ _).
  - discriminate.
  - repeat constructor; is_member.
  - reflexivity.
Defined.

(** C10, as stated, fails on an empty value: it is skipped, so the data
    is not the values joined by [&]. *)
Lemma C10_empty_value_is_not_joined :
  (exists r, run "curl -d a -d '' -d b http://example.com" = Ok r
             /\ data r = Some (Word "a&b"))
  /\ join "&" ["a"; EmptyString; "b"] = "a&&b".
Proof. split; [eexists; split|]; vm_compute; reflexivity. Qed.

(** * Further properties of the parser *)

(** ** Texts *)

Lemma forallb_append (p : ascii -> bool) (a b : string) :
  Js.forallb p (a +:+ b) = Js.forallb p a && Js.forallb p b.
Proof.
  induction a as [|c a IH]; [reflexivity|].
  rewrite append_String. cbn [Js.forallb]. now rewrite IH, andb_assoc.
Qed.

Lemma forallb_drop (p : ascii -> bool) (n : nat) (s : string) :
  Js.forallb p s = true -> Js.forallb p (Js.drop n s) = true.
Proof.
  revert s. induction n as [|n IH]; intros [|c s] H; cbn; try exact H.
  cbn in H. apply andb_true_iff in H as [_ H]. now apply IH.
Qed.

Lemma forallb_trimStart (p : ascii -> bool) (s : string) :
  Js.forallb p s = true -> Js.forallb p (Js.trimStart s) = true.
Proof.
  induction s as [|c s IH]; intros H; [exact H|].
  cbn [Js.trimStart]. destruct (Js.is_space c); [|exact H].
  cbn in H. apply andb_true_iff in H as [_ H]. now apply IH.
Qed.

Lemma forallb_trimEnd (p : ascii -> bool) (s : string) :
  Js.forallb p s = true -> Js.forallb p (Js.trimEnd s) = true.
Proof.
  induction s as [|c s IH]; intros H; [exact H|].
  cbn in H. apply andb_true_iff in H as [Hc H]. specialize (IH H).
  cbn [Js.trimEnd]. destruct (Js.trimEnd s) as [|d r].
  - destruct (Js.is_space c); cbn; [reflexivity | now rewrite Hc].
  - cbn [Js.forallb] in *. now rewrite Hc, IH.
Qed.

Lemma forallb_replace_first (p : ascii -> bool) (pat rep s : string) :
  Js.forallb p rep = true -> Js.forallb p s = true ->
  Js.forallb p (Js.replace_first pat rep s) = true.
Proof.
  intros Hrep. induction s as [|c s IH]; intros H.
  - cbn [Js.replace_first]. destruct (String.prefix pat EmptyString); [|reflexivity].
    rewrite forallb_append, Hrep. now apply forallb_drop.
  - cbn [Js.replace_first]. destruct (String.prefix pat (String c s)).
    + rewrite forallb_append, Hrep. now apply forallb_drop.
    + cbn in *. apply andb_true_iff in H as [Hc H]. now rewrite Hc, IH.
Qed.

Lemma single_line_collapse (b : bool) (s : string) :
  single_line (collapse_whitespace b s) = true.
Proof.
  revert b. induction s as [|c s IH]; intros b; [reflexivity|].
  cbn [collapse_whitespace]. destruct (Js.is_space c) eqn:Hc.
  - destruct b; [apply IH|]. unfold single_line in *. cbn. apply IH.
  - unfold single_line in *. cbn. rewrite Hc. apply IH.
Qed.

Lemma single_line_convert_escaped_quotes (s : string) :
  single_line s = true -> single_line (convert_escaped_quotes s) = true.
Proof.
  unfold single_line.
  assert (forall n s, String.length s <= n ->
            Js.forallb (fun c => negb (Js.is_space c) || Js.ascii_eqb c " ") s = true ->
            Js.forallb (fun c => negb (Js.is_space c) || Js.ascii_eqb c " ")
              (convert_escaped_quotes s) = true) as Hgen.
  { clear s. induction n as [|n IH]; intros [|c [|d r]] Hlen H; cbn in Hlen;
      try lia; try exact H.
    cbn [convert_escaped_quotes].
    destruct (Js.ascii_eqb c Js.BS && Js.ascii_eqb d Js.SQ && negb _).
    - rewrite forallb_append. cbn in H.
      apply andb_true_iff in H as [_ H]. apply andb_true_iff in H as [_ H].
      apply andb_true_iff. split; [reflexivity|]. apply IH; [lia | exact H].
    - cbn [Js.forallb] in *. apply andb_true_iff in H as [Hc H].
      rewrite Hc. apply (IH (String d r)); [cbn; lia | exact H]. }
  intros H. now apply (Hgen (String.length s)).
Qed.

Lemma single_line_fixConcatenatedMethods (s : string) :
  single_line s = true -> single_line (fixConcatenatedMethods s) = true.
Proof.
  unfold fixConcatenatedMethods, single_line. cbn [fold_left methodFixes fst snd].
  intros H. repeat (apply forallb_replace_first; [reflexivity|]). exact H.
Qed.

Lemma starts_with_space_trimStart (s : string) :
  starts_with_space (Js.trimStart s) = false.
Proof.
  induction s as [|c s IH]; [reflexivity|].
  cbn [Js.trimStart]. destruct (Js.is_space c) eqn:Hc; [exact IH|].
  cbn [starts_with_space]. exact Hc.
Qed.

Lemma ends_with_space_trimEnd (s : string) :
  ends_with_space (Js.trimEnd s) = false.
Proof.
  induction s as [|c s IH]; [reflexivity|].
  cbn [Js.trimEnd]. destruct (Js.trimEnd s) as [|d r] eqn:Hs.
  - destruct (Js.is_space c) eqn:Hc; cbn [ends_with_space]; [reflexivity | exact Hc].
  - exact IH.
Qed.

Lemma starts_with_space_trimEnd (s : string) :
  starts_with_space s = false -> starts_with_space (Js.trimEnd s) = false.
Proof.
  destruct s as [|c s]; [reflexivity|]. cbn [starts_with_space Js.trimEnd].
  intros Hc. destruct (Js.trimEnd s); [rewrite Hc|]; cbn [starts_with_space];
    [exact Hc | exact Hc].
Qed.

(** X1.  The command that [cleanCurlCommand] hands to the tokenizer is one
    line: its only white space is the plain space, and it neither starts
    nor ends with white space. *)
Theorem cleanCurlCommand_single_line (curlCommand : string) :
  single_line (cleanCurlCommand curlCommand) = true
  /\ starts_with_space (cleanCurlCommand curlCommand) = false
  /\ ends_with_space (cleanCurlCommand curlCommand) = false.
Proof.
  unfold cleanCurlCommand, Js.trim. split; [|split].
  - apply forallb_trimEnd, forallb_trimStart.
    apply single_line_fixConcatenatedMethods, single_line_convert_escaped_quotes.
    apply single_line_collapse.
  - apply starts_with_space_trimEnd, starts_with_space_trimStart.
  - apply ends_with_space_trimEnd.
Qed.

Lemma replace_first_absent (pat rep s : string) :
  contains pat s = false -> Js.replace_first pat rep s = s.
Proof.
  induction s as [|c s IH]; cbn [contains Js.replace_first]; intros H;
    apply orb_false_iff in H as [Hp H]; rewrite Hp; [reflexivity|].
  now rewrite (IH H).
Qed.

Lemma fixConcatenatedMethods_absent (command : string) :
  forallb (fun fix_ => negb (contains (fst fix_) command)) methodFixes = true ->
  fixConcatenatedMethods command = command.
Proof.
  unfold fixConcatenatedMethods. cbn [forallb fold_left methodFixes fst snd].
  intros H.
  repeat (apply andb_true_iff in H as [Hp H]; apply negb_true_iff in Hp;
          rewrite (replace_first_absent _ _ _ Hp); clear Hp).
  reflexivity.
Qed.

(** X2.  [fixConcatenatedMethods] changes nothing in a command that has
    none of the eight texts it looks for (a method glued to [-X]): a
    command with [-X POST] written in two words passes as it is. *)
Theorem fixConcatenatedMethods_unchanged (command : string) :
  forallb (fun fix_ => negb (contains (fst fix_) command)) methodFixes = true ->
  fixConcatenatedMethods command = command.
Proof. apply fixConcatenatedMethods_absent. Qed.

Lemma fixConcatenatedMethods_unchanged_witness :
  fixConcatenatedMethods "curl -X POST -d a=b http://example.com"
  = "curl -X POST -d a=b http://example.com".
Proof. apply fixConcatenatedMethods_unchanged. vm_compute. reflexivity. Defined.

(** ** Headers *)

Lemma line_prefix_whole (s : string) :
  Js.existsb Js.is_line_terminator s = false -> Js.line_prefix s = s.
Proof.
  induction s as [|c s IH]; [reflexivity|]. cbn [Js.existsb Js.line_prefix].
  intros H. apply orb_false_iff in H as [Hc H]. now rewrite Hc, IH.
Qed.

Lemma ascii_eqb_sym (a b : ascii) : Js.ascii_eqb a b = Js.ascii_eqb b a.
Proof. unfold Js.ascii_eqb. apply Ascii.eqb_sym. Qed.

Lemma ascii_eqb_refl (a : ascii) : Js.ascii_eqb a a = true.
Proof. unfold Js.ascii_eqb. apply Ascii.eqb_refl. Qed.

Lemma ascii_eqb_true (a b : ascii) : Js.ascii_eqb a b = true -> a = b.
Proof. unfold Js.ascii_eqb. apply Ascii.eqb_eq. Qed.

(** [name: value] is split into the name and the value. *)
Lemma split_header_pair (name value : string) :
  Js.includes ":" name = false ->
  Js.truthy value = true ->
  Js.existsb Js.is_line_terminator value = false ->
  split_header (name +:+ ": " +:+ value) = (name, Some value).
Proof.
  intros Hn Hv Hl. induction name as [|c n IH].
  - destruct value as [|d v]; [discriminate Hv|].
    change (EmptyString +:+ ": " +:+ String d v)
      with (String ":" (String " " (String d v))).
    cbn [split_header]. rewrite !ascii_eqb_refl.
    pose proof Hl as Hd. cbn [Js.existsb] in Hd. apply orb_false_iff in Hd as [Hd _].
    rewrite Hd. cbn [andb negb Js.drop]. now rewrite (line_prefix_whole _ Hl).
  - cbn [Js.includes Js.existsb] in Hn. apply orb_false_iff in Hn as [Hc Hn].
    rewrite append_String. cbn [split_header].
    rewrite ascii_eqb_sym in Hc. rewrite Hc.
    fold (Js.includes ":" n) in Hn. rewrite (IH Hn).
    destruct (n +:+ ": " +:+ value) as [|sp [|d r]]; reflexivity.
Qed.

(** A text without a colon followed by a space has no value. *)
Lemma split_header_no_separator (value : string) :
  contains ": " value = false -> split_header value = (value, None).
Proof.
  induction value as [|c r IH]; [reflexivity|].
  cbn [contains]. intros H. apply orb_false_iff in H as [Hp H].
  cbn [split_header]. rewrite (IH H).
  destruct r as [|sp [|d r']]; try reflexivity.
  destruct (Js.ascii_eqb c ":") eqn:Hc; [|reflexivity].
  destruct (Js.ascii_eqb sp " ") eqn:Hs; [|reflexivity].
  apply ascii_eqb_true in Hc, Hs. subst c sp. discriminate Hp.
Qed.

Lemma setHeader_name_value_aux (req : request) (h : gmap string jsval)
    (name value : string) :
  headers req = Some h ->
  Js.includes ":" name = false -> name <> "__proto__" ->
  Js.truthy value = true ->
  Js.existsb Js.is_line_terminator value = false ->
  setHeader req (Word (name +:+ ": " +:+ value))
  = Ok (set_headers (Some (<[name := Some (Word value)]> h)) req).
Proof.
  intros Hh Hn Hp Hv Hl. unfold setHeader, headers_set, obj_set.
  rewrite (split_header_pair _ _ Hn Hv Hl), Hh.
  now rewrite decide_False.
Qed.

(** X3.  A header given as [name: value] (a name without colon, a value
    that is not empty and has no line break) is stored under [name] with
    the value [value]. *)
Theorem setHeader_name_value (req : request) (h : gmap string jsval)
    (name value : string) :
  headers req = Some h ->
  Js.includes ":" name = false -> name <> "__proto__" ->
  Js.truthy value = true ->
  Js.existsb Js.is_line_terminator value = false ->
  setHeader req (Word (name +:+ ": " +:+ value))
  = Ok (set_headers (Some (<[name := Some (Word value)]> h)) req).
Proof.
  intros Hh Hn Hp Hv Hl. now apply setHeader_name_value_aux.
Qed.

Lemma setHeader_name_value_witness :
  setHeader empty_request (Word "Accept: text/html")
  = Ok (set_headers (Some (<["Accept" := Some (Word "text/html")]> ∅)) empty_request).
Proof.
  apply (setHeader_name_value empty_request ∅ "Accept" "text/html");
    first [reflexivity | discriminate].
Defined.

(** X4.  A header text in which no colon is followed by a space, such as
    [Accept:text/html], is not split: the whole text becomes the name of
    a header whose value is undefined. *)
Theorem setHeader_without_separator (req : request) (h : gmap string jsval)
    (value : string) :
  headers req = Some h ->
  contains ": " value = false -> value <> "__proto__" ->
  setHeader req (Word value) = Ok (set_headers (Some (<[value := None]> h)) req).
Proof.
  intros Hh Hc Hp. unfold setHeader, headers_set, obj_set.
  rewrite (split_header_no_separator _ Hc), Hh.
  now rewrite decide_False.
Qed.

Lemma setHeader_without_separator_witness :
  setHeader empty_request (Word "Accept:text/html")
  = Ok (set_headers (Some (<["Accept:text/html" := None]> ∅)) empty_request).
Proof.
  apply (setHeader_without_separator empty_request ∅ "Accept:text/html");
    first [reflexivity | discriminate].
Defined.

(** X5.  [-A value] and [-H 'User-Agent: value'] store the same header,
    for a value that is not empty and has no line break. *)
Theorem setUserAgent_as_header (req : request) (value : string) :
  Js.truthy value = true ->
  Js.existsb Js.is_line_terminator value = false ->
  setUserAgent req (Word value) = setHeader req (Word ("User-Agent: " +:+ value)).
Proof.
  intros Hv Hl. unfold setUserAgent, setHeader.
  change ("User-Agent: " +:+ value) with ("User-Agent" +:+ ": " +:+ value).
  now rewrite (split_header_pair "User-Agent" value eq_refl Hv Hl).
Qed.

Lemma setUserAgent_as_header_witness :
  setUserAgent empty_request (Word "curl/8.0")
  = setHeader empty_request (Word "User-Agent: curl/8.0").
Proof. apply setUserAgent_as_header; reflexivity. Defined.

(** X6.  An Accept-Encoding header given with [-H] wins over
    [--compressed] on either side of it: the flag keeps a header that is
    there, and the header replaces the default of the flag. *)
Theorem compressed_keeps_given_encoding (req : request) (h : gmap string jsval)
    (value : string) :
  headers req = Some h ->
  Js.truthy value = true ->
  Js.existsb Js.is_line_terminator value = false ->
  let given := Word ("Accept-Encoding: " +:+ value) in
  let expected := set_headers (Some (<["Accept-Encoding" := Some (Word value)]> h)) req in
  (let! r := setHeader req given in handleFlag (Word "--compressed") r)
  = Ok (expected, None)
  /\ (let! fr := handleFlag (Word "--compressed") req in setHeader (fst fr) given)
     = Ok expected.
Proof.
  intros Hh Hv Hl given expected. subst given expected.
  change ("Accept-Encoding: " +:+ value) with ("Accept-Encoding" +:+ ": " +:+ value).
  split.
  - rewrite (setHeader_name_value_aux req h "Accept-Encoding" value Hh eq_refl
               ltac:(discriminate) Hv Hl).
    cbn [bind]. unfold handleFlag.
    change (find_category (Word "--compressed")) with (Some CCompressed).
    cbn [handleFlagCategory headers set_headers]. rewrite lookup_insert_eq.
    change (default None (Some (Some (Word value)))) with (Some (Word value)).
    cbn [jsval_truthy token_truthy]. rewrite Hv.
    unfold headers_set, obj_set. cbn [headers set_headers bind].
    rewrite decide_False by discriminate. now rewrite insert_insert_eq.
  - unfold handleFlag.
    change (find_category (Word "--compressed")) with (Some CCompressed).
    cbn [handleFlagCategory]. rewrite Hh. unfold headers_set at 1. rewrite Hh.
    unfold obj_set at 1. rewrite decide_False by discriminate.
    cbn [bind fst].
    match goal with
    | |- setHeader ?r _ = _ =>
        rewrite (setHeader_name_value_aux r _ "Accept-Encoding" value eq_refl eq_refl
                   ltac:(discriminate) Hv Hl)
    end.
    cbn [set_headers headers method url urlWithoutQuery data isDataRaw isDataBinary
           insecure isQuery auth multipartUploads cookies cookieString query].
    now rewrite insert_insert_eq.
Qed.

Lemma compressed_keeps_given_encoding_witness :
  (let! r := setHeader empty_request (Word "Accept-Encoding: br") in
   handleFlag (Word "--compressed") r)
  = Ok (set_headers (Some (<["Accept-Encoding" := Some (Word "br")]> ∅)) empty_request,
        None)
  /\ (let! fr := handleFlag (Word "--compressed") empty_request in
      setHeader (fst fr) (Word "Accept-Encoding: br"))
     = Ok (set_headers (Some (<["Accept-Encoding" := Some (Word "br")]> ∅)) empty_request).
Proof.
  apply (compressed_keeps_given_encoding empty_request ∅ "br"); reflexivity.
Defined.

(** ** Form fields *)

Lemma includes_append (c : ascii) (a b : string) :
  Js.includes c (a +:+ b) = Js.includes c a || Js.includes c b.
Proof.
  unfold Js.includes. induction a as [|d a IH]; [reflexivity|].
  rewrite append_String. cbn [Js.existsb]. now rewrite IH, orb_assoc.
Qed.

Lemma break_at_app (c : ascii) (a b : string) :
  Js.includes c a = false -> Js.break_at c (a +:+ String c b) = Some (a, b).
Proof.
  induction a as [|d a IH]; intros H.
  - rewrite append_empty. cbn [Js.break_at]. now rewrite ascii_eqb_refl.
  - cbn [Js.includes Js.existsb] in H. apply orb_false_iff in H as [Hd H].
    rewrite append_String. cbn [Js.break_at].
    rewrite ascii_eqb_sym, Hd. fold (Js.includes c a) in H. now rewrite (IH H).
Qed.

Lemma break_at_Some (c : ascii) (s a b : string) :
  Js.break_at c s = Some (a, b) ->
  s = a +:+ String c b /\ Js.includes c a = false.
Proof.
  revert a. induction s as [|d s IH]; intros a H; [discriminate H|].
  cbn [Js.break_at] in H. destruct (Js.ascii_eqb d c) eqn:Hd.
  - injection H as <- <-. apply ascii_eqb_true in Hd as ->. now split.
  - destruct (Js.break_at c s) as [[a' b']|]; [|discriminate H].
    injection H as <- <-. destruct (IH a' eq_refl) as [-> Ha]. split.
    + now rewrite append_String.
    + cbn [Js.includes Js.existsb]. rewrite ascii_eqb_sym, Hd. exact Ha.
Qed.

Lemma break_at_None (c : ascii) (s : string) :
  Js.includes c s = false -> Js.break_at c s = None.
Proof.
  induction s as [|d s IH]; [reflexivity|].
  cbn [Js.includes Js.existsb Js.break_at]. intros H.
  apply orb_false_iff in H as [Hd H]. rewrite ascii_eqb_sym, Hd.
  fold (Js.includes c s) in H. now rewrite (IH H).
Qed.

Lemma quoted_body_unquoted (r : string) :
  first_is Js.DQ r = false -> quoted_body r = None.
Proof. destruct r as [|q r]; [reflexivity|]. cbn. now intros ->. Qed.

Lemma quoted_body_quoted (x : string) :
  Js.includes Js.DQ x = false -> quoted_body (quoted x) = Some x.
Proof.
  intros H. unfold quoted, quoted_body. rewrite ascii_eqb_refl.
  now rewrite (break_at_app _ _ _ H).
Qed.

(** The value of a field whose text after [=] has no [@] and no opening
    double quote is that text. *)
Lemma form_value_plain (r : string) :
  Js.includes "@" r = false -> first_is Js.DQ r = false -> form_value r = Some r.
Proof.
  intros Hat Hq. unfold form_value. rewrite (quoted_body_unquoted _ Hq).
  destruct r as [|a y]; [reflexivity|].
  pose proof Hat as Ha. cbn [Js.includes Js.existsb] in Ha.
  apply orb_false_iff in Ha as [Ha _]. rewrite ascii_eqb_sym in Ha.
  now rewrite Ha, Hat.
Qed.

(** X7.  A text field [name=value] (a name without [=], a value without
    [@] that does not open a double quote) is parsed into that name and
    that value, of type text when the name has no [@] either. *)
Theorem parseFormField_text (name value : string) :
  Js.truthy name = true -> Js.includes "=" name = false ->
  Js.includes "@" name = false ->
  Js.includes "@" value = false -> first_is Js.DQ value = false ->
  parseFormField (name +:+ "=" +:+ value) = Some (MkUpload name value "text" true).
Proof.
  intros Hn He Hna Hva Hq. unfold parseFormField.
  change ("=" +:+ value) with (String "=" value).
  rewrite (break_at_app _ _ _ He). destruct name as [|c n]; [discriminate Hn|].
  rewrite (form_value_plain _ Hva Hq).
  rewrite includes_append, Hna.
  change (Js.includes "@" (String "=" value))
    with (Js.ascii_eqb "@" "=" || Js.includes "@" value).
  now rewrite Hva.
Qed.

Lemma parseFormField_text_witness :
  parseFormField "user=John Doe" = Some (MkUpload "user" "John Doe" "text" true).
Proof. apply (parseFormField_text "user" "John Doe"); reflexivity. Defined.

(** X8.  A file field [name=@path] (a name without [=], a path without
    [@] that does not open a double quote) is parsed into that name and
    that path, of type file. *)
Theorem parseFormField_file (name path : string) :
  Js.truthy name = true -> Js.includes "=" name = false ->
  Js.includes "@" path = false -> first_is Js.DQ path = false ->
  parseFormField (name +:+ "=@" +:+ path) = Some (MkUpload name path "file" true).
Proof.
  intros Hn He Hpa Hq. unfold parseFormField.
  change ("=@" +:+ path) with (String "=" (String "@" path)).
  rewrite (break_at_app _ _ _ He). destruct name as [|c n]; [discriminate Hn|].
  unfold form_value.
  change (quoted_body (String "@" path)) with (@None string).
  rewrite ascii_eqb_refl, (quoted_body_unquoted _ Hq), Hpa.
  rewrite includes_append. cbn [Js.includes Js.existsb].
  rewrite ascii_eqb_refl. now rewrite !orb_true_r.
Qed.

Lemma parseFormField_file_witness :
  parseFormField "avatar=@/tmp/a.png" = Some (MkUpload "avatar" "/tmp/a.png" "file" true).
Proof. apply (parseFormField_file "avatar" "/tmp/a.png"); reflexivity. Defined.

(** X9.  Double quotes around the value of a field are removed: the
    value of [name="text"] is [text] (a text without double quote); the
    same holds after [@]. *)
Theorem parseFormField_quoted (name text : string) :
  Js.truthy name = true -> Js.includes "=" name = false ->
  Js.includes Js.DQ text = false ->
  (exists u, parseFormField (name +:+ "=" +:+ quoted text) = Some u
             /\ up_name u = name /\ up_value u = text)
  /\ (exists u, parseFormField (name +:+ "=@" +:+ quoted text) = Some u
                /\ up_name u = name /\ up_value u = text /\ up_type u = "file").
Proof.
  intros Hn He Hq. unfold parseFormField.
  change ("=@" +:+ quoted text) with (String "=" (String "@" (quoted text))).
  change ("=" +:+ quoted text) with (String "=" (quoted text)).
  rewrite !(break_at_app _ _ _ He). destruct name as [|c n]; [discriminate Hn|].
  unfold form_value. split.
  - rewrite (quoted_body_quoted _ Hq). eexists. repeat split.
  - change (quoted_body (String "@" (quoted text))) with (@None string).
    rewrite ascii_eqb_refl, (quoted_body_quoted _ Hq).
    rewrite includes_append. cbn [Js.includes Js.existsb].
    rewrite ascii_eqb_refl, !orb_true_r. eexists. repeat split.
Qed.

Lemma parseFormField_quoted_witness :
  (exists u, parseFormField ("title=" +:+ quoted "a b") = Some u
             /\ up_name u = "title" /\ up_value u = "a b")
  /\ (exists u, parseFormField ("title=@" +:+ quoted "a b") = Some u
                /\ up_name u = "title" /\ up_value u = "a b" /\ up_type u = "file").
Proof. apply (parseFormField_quoted "title" "a b"); reflexivity. Defined.

(** X10.  What [parseFormField] returns is always of this shape: the name
    is the text before the first [=] and is not empty, the field is
    enabled, and its type is file exactly when the field has an [@]
    somewhere; a field without [=] is not parsed. *)
Theorem parseFormField_shape (field : string) :
  (forall u, parseFormField field = Some u ->
     (exists rest, field = up_name u +:+ "=" +:+ rest)
     /\ Js.truthy (up_name u) = true
     /\ Js.includes "=" (up_name u) = false
     /\ up_enabled u = true
     /\ up_type u = (if Js.includes "@" field then "file" else "text"))
  /\ (Js.includes "=" field = false -> parseFormField field = None).
Proof.
  split.
  - intros u H. unfold parseFormField in H.
    destruct (Js.break_at "=" field) as [[[|c n] r]|] eqn:Hb; try discriminate H.
    destruct (form_value r) as [v|]; [|discriminate H].
    injection H as <-. cbn [up_name up_enabled up_type].
    apply break_at_Some in Hb as [-> Hn]. repeat split; try assumption.
    exists r. reflexivity.
  - intros H. unfold parseFormField. now rewrite (break_at_None _ _ H).
Qed.

Lemma parseFormField_shape_witness :
  parseFormField "novalue" = None.
Proof. apply (proj2 (parseFormField_shape "novalue")). reflexivity. Defined.

(** ** Query parameters given as arguments *)

(** X11.  The test by which [isURLFragment] takes a string for a piece of
    a query string holds exactly for [key=value] with a key that is not
    empty and has no [=], and a value without [&]. *)
Theorem looks_like_query_param_iff (arg : string) :
  looks_like_query_param arg = true <->
  exists key value,
    arg = key +:+ "=" +:+ value
    /\ Js.truthy key = true
    /\ Js.includes "=" key = false
    /\ Js.includes "&" value = false.
Proof.
  unfold looks_like_query_param. split.
  - destruct (Js.break_at "=" arg) as [[[|c k] v]|] eqn:Hb; try discriminate.
    intros Hv. apply negb_true_iff in Hv.
    apply break_at_Some in Hb as [-> Hk].
    exists (String c k), v. now repeat split.
  - intros (k & v & -> & Hk & He & Hv).
    change ("=" +:+ v) with (String "=" v). rewrite (break_at_app _ _ _ He).
    destruct k; [discriminate Hk|]. now rewrite Hv.
Qed.

(** ** The end of the pipeline *)

(** X12.  [normalizeRequest] applied to its own result changes nothing. *)
Theorem normalizeRequest_idempotent (req r : request) :
  normalizeRequest req = Ok r -> normalizeRequest r = Ok r.
Proof.
  unfold normalizeRequest. destruct (method req) as [m|] eqn:Hm; [|discriminate].
  intros H. injection H as <-.
  assert (forall x, method (if headers_isEmpty x then set_headers None x else x)
                    = method x) as Hmeth by (intros x; now destruct (headers_isEmpty x)).
  rewrite Hmeth. cbn [method set_method]. rewrite toLowerCase_idempotent.
  f_equal. destruct req as [h ? ? ? ? ? ? ? ? ? ? ? ? ?].
  unfold headers_isEmpty, set_method, set_headers. cbn.
  destruct h as [h|]; cbn; [|reflexivity].
  case_bool_decide; cbn; [reflexivity|].
  now rewrite bool_decide_eq_false_2.
Qed.

Lemma normalizeRequest_idempotent_witness :
  normalizeRequest (set_method (Some "PUT") empty_request)
  = Ok (set_headers None (set_method (Some "put") empty_request))
  /\ normalizeRequest (set_headers None (set_method (Some "put") empty_request))
     = Ok (set_headers None (set_method (Some "put") empty_request)).
Proof.
  assert (normalizeRequest (set_method (Some "PUT") empty_request)
          = Ok (set_headers None (set_method (Some "put") empty_request))) as H
    by (vm_compute; reflexivity).
  split; [exact H|]. exact (normalizeRequest_idempotent _ _ H).
Defined.

(** ** More of what [setData], [setAuth] and [setURL] leave as it is *)

Lemma urlWithoutQuery_setData req v : urlWithoutQuery (setData req v) = urlWithoutQuery req.
Proof. frame_solve. Qed.
Lemma insecure_setData req v : insecure (setData req v) = insecure req.
Proof. frame_solve. Qed.
Lemma isDataRaw_setData req v : isDataRaw (setData req v) = isDataRaw req.
Proof. frame_solve. Qed.
Lemma isDataBinary_setData req v : isDataBinary (setData req v) = isDataBinary req.
Proof. frame_solve. Qed.
Lemma query_setData req v : query (setData req v) = query req.
Proof. frame_solve. Qed.
Lemma multipartUploads_setData req v : multipartUploads (setData req v) = multipartUploads req.
Proof. frame_solve. Qed.
Lemma cookieString_setData req v : cookieString (setData req v) = cookieString req.
Proof. frame_solve. Qed.
Lemma cookies_setData req v : cookies (setData req v) = cookies req.
Proof. frame_solve. Qed.
Lemma auth_setData req v : auth (setData req v) = auth req.
Proof. frame_solve. Qed.
Lemma urlWithoutQuery_setAuth req v : urlWithoutQuery (setAuth req v) = urlWithoutQuery req.
Proof. frame_solve. Qed.
Lemma insecure_setAuth req v : insecure (setAuth req v) = insecure req.
Proof. frame_solve. Qed.
Lemma isDataRaw_setAuth req v : isDataRaw (setAuth req v) = isDataRaw req.
Proof. frame_solve. Qed.
Lemma isDataBinary_setAuth req v : isDataBinary (setAuth req v) = isDataBinary req.
Proof. frame_solve. Qed.
Lemma query_setAuth req v : query (setAuth req v) = query req.
Proof. frame_solve. Qed.
Lemma multipartUploads_setAuth req v : multipartUploads (setAuth req v) = multipartUploads req.
Proof. frame_solve. Qed.
Lemma cookieString_setAuth req v : cookieString (setAuth req v) = cookieString req.
Proof. frame_solve. Qed.
Lemma cookies_setAuth req v : cookies (setAuth req v) = cookies req.
Proof. frame_solve. Qed.
Lemma insecure_setURL req v : insecure (setURL req v) = insecure req.
Proof. frame_solve. Qed.
Lemma isDataRaw_setURL req v : isDataRaw (setURL req v) = isDataRaw req.
Proof. frame_solve. Qed.
Lemma isDataBinary_setURL req v : isDataBinary (setURL req v) = isDataBinary req.
Proof. frame_solve. Qed.
Lemma query_setURL req v : query (setURL req v) = query req.
Proof. frame_solve. Qed.
Lemma multipartUploads_setURL req v : multipartUploads (setURL req v) = multipartUploads req.
Proof. frame_solve. Qed.
Lemma cookieString_setURL req v : cookieString (setURL req v) = cookieString req.
Proof. frame_solve. Qed.
Lemma cookies_setURL req v : cookies (setURL req v) = cookies req.
Proof. frame_solve. Qed.
Lemma auth_setURL req v : auth (setURL req v) = auth req.
Proof. frame_solve. Qed.

#[global] Hint Rewrite urlWithoutQuery_setData insecure_setData isDataRaw_setData isDataBinary_setData query_setData multipartUploads_setData cookieString_setData cookies_setData auth_setData urlWithoutQuery_setAuth insecure_setAuth isDataRaw_setAuth isDataBinary_setAuth query_setAuth multipartUploads_setAuth cookieString_setAuth cookies_setAuth insecure_setURL isDataRaw_setURL isDataBinary_setURL query_setURL multipartUploads_setURL cookieString_setURL cookies_setURL auth_setURL : frame.

(** ** The URL *)

(** The first element of [u.split(c)] is the text before the first [c]. *)
Lemma split_head (c : ascii) (u : string) :
  exists p, head (Js.split c u) = Some p
            /\ Js.includes c p = false
            /\ (u = p \/ exists q, u = p +:+ String c q).
Proof.
  induction u as [|d u (p & Hp & Hc & Hu)].
  - exists EmptyString. repeat split. now left.
  - cbn [Js.split]. destruct (Js.ascii_eqb d c) eqn:Hd.
    + exists EmptyString. repeat split. right. exists u.
      apply ascii_eqb_true in Hd as ->. reflexivity.
    + destruct (Js.split c u) as [|h t]; [discriminate Hp|].
      injection Hp as ->. exists (String d p). split; [reflexivity|]. split.
      * cbn [Js.includes Js.existsb]. now rewrite ascii_eqb_sym, Hd.
      * destruct Hu as [-> | [q ->]]; [now left|]. right. exists q.
        now rewrite append_String.
Qed.

Section Url.
Context {L : Libs}.

Lemma setURL_consistent req t : url_consistent req -> url_consistent (setURL req t).
Proof.
  intros H. unfold setURL. destruct (getUrlString t) as [s|]; [|exact H].
  destruct (Js.truthy s) eqn:Hs; [|exact H].
  assert (forall x, Js.truthy x = true ->
            url_consistent (updateUrlWithoutQuery (set_url (Some x) req))) as Hx.
  { intros x Hx. unfold updateUrlWithoutQuery, url_consistent.
    cbn [url set_url]. rewrite Hx. cbn. now rewrite Hx. }
  destruct (url req) as [u|]; [destruct (Js.truthy u) eqn:Hu|]; apply Hx;
    try exact Hs. now apply truthy_append_l.
Qed.

Lemma url_consistent_ext r1 r2 :
  url r1 = url r2 -> urlWithoutQuery r1 = urlWithoutQuery r2 ->
  url_consistent r2 -> url_consistent r1.
Proof. unfold url_consistent. now intros -> ->. Qed.

Lemma url_consistent_step t : step_ok url_consistent any_state t.
Proof.
  split; [|split].
  - intros req req1 fs H Hc. split; [|exact I].
    flag_cases H; (eapply url_consistent_ext; [| |exact Hc]); reflexivity.
  - intros s req req' _ _ H Hc.
    destruct s; value_cases H;
      (eapply url_consistent_ext; [| |exact Hc]);
      cbn; autorewrite with frame; reflexivity.
  - intros req. apply setURL_consistent.
Qed.

(** X13.  After [buildRequest], [urlWithoutQuery] is there exactly when
    [url] is, and is the part of the URL before its first question
    mark. *)
Theorem buildRequest_urlWithoutQuery (toks : list token) (req : request) :
  buildRequest toks = Ok req ->
  (url req = None -> urlWithoutQuery req = None)
  /\ (forall u, url req = Some u ->
        exists p, urlWithoutQuery req = Some p
                  /\ Js.includes "?" p = false
                  /\ (u = p \/ exists q, u = p +:+ "?" +:+ q)).
Proof.
  intros H. apply buildRequest_Ok in H as [st Hrun].
  apply (run_args_preserves url_consistent any_state) in Hrun as [Hc _];
    [ | intros; apply url_consistent_step | reflexivity | exact I ].
  cbn [fst] in Hc. unfold url_consistent in Hc. split.
  - intros Hu. now rewrite Hu in Hc.
  - intros u Hu. rewrite Hu in Hc. destruct Hc as [_ Hw].
    destruct (split_head "?" u) as (p & Hp & Hq & Hs).
    exists p. rewrite Hw. auto.
Qed.

End Url.

Lemma buildRequest_urlWithoutQuery_witness :
  @buildRequest ModelLibs [Word "curl"; Word "http://example.com/api?x=1"]
  = Ok (set_urlWithoutQuery (Some "http://example.com/api")
          (set_url (Some "http://example.com/api?x=1") empty_request))
  /\ exists p, Some "http://example.com/api" = Some p
               /\ Js.includes "?" p = false
               /\ ("http://example.com/api?x=1" = p
                   \/ exists q, "http://example.com/api?x=1" = p +:+ "?" +:+ q).
Proof.
  assert (@buildRequest ModelLibs [Word "curl"; Word "http://example.com/api?x=1"]
          = Ok (set_urlWithoutQuery (Some "http://example.com/api")
                  (set_url (Some "http://example.com/api?x=1") empty_request))) as H
    by (vm_compute; reflexivity).
  split; [exact H|].
  exact (proj2 (@buildRequest_urlWithoutQuery ModelLibs _ _ H) _ eq_refl).
Defined.

Section UrlPieces.
Context {L : Libs}.

Lemma url_text_setURL req t s :
  getUrlString t = Some s -> Js.truthy s = true ->
  url_text (setURL req t) = url_text req +:+ s.
Proof.
  intros Hg Hs. unfold url_text at 1. now rewrite (setURL_text req t s Hg Hs).
Qed.

Lemma run_args_url_pieces (ts : list token) (ss : list string) :
  Forall2 url_piece ts ss ->
  forall req,
    exists req',
      run_args ts None req = Ok (req', None)
      /\ url_text req' = url_text req +:+ concat_all ss
      /\ (ts <> [] -> url req' = Some (url_text req')).
Proof.
  induction 1 as [|t s ts ss (Hc & Hu & Hg & Hs) _ IH]; intros req.
  - exists req. cbn [concat_all]. rewrite append_empty_r. now repeat split.
  - cbn [run_args]. rewrite (processArgument_idle _ _ Hc), Hu.
    cbn [bind fst snd]. rewrite next_state_eq.
    destruct (IH (setURL req t)) as (req' & Hrun & Htext & Hurl).
    exists req'. split; [exact Hrun|].
    rewrite (url_text_setURL _ _ _ Hg Hs) in Htext. split.
    + cbn [concat_all]. now rewrite Htext, append_assoc.
    + intros _. destruct ts as [|t' ts'].
      * cbn in Hrun. injection Hrun as <-.
        unfold url_text. now rewrite (setURL_text req t s Hg Hs).
      * apply Hurl. discriminate.
Qed.

(** X14.  Arguments that look like a URL or like a piece of one (a string
    with a host, a glob with a host, the operator [&], a [key=value]
    string), met in a row while no flag waits for a value, are put
    together in their order and appended to the URL collected so far. *)
Theorem url_pieces_are_concatenated (ts : list token) (ss : list string)
    (req : request) :
  Forall2 url_piece ts ss -> ts <> [] ->
  exists req',
    run_args ts None req = Ok (req', None)
    /\ url req' = Some (url_text req +:+ concat_all ss).
Proof.
  intros H Hne. destruct (run_args_url_pieces ts ss H req) as (req' & Hrun & Ht & Hu).
  exists req'. split; [exact Hrun|]. now rewrite (Hu Hne), Ht.
Qed.

(** X15.  [buildRequest] only ever appends to the URL: the URL collected
    from the first arguments of a command is the beginning of the URL
    collected from all of them. *)
Theorem url_only_grows (toks1 toks2 : list token) (req1 req2 : request) (u : string) :
  buildRequest toks1 = Ok req1 -> url req1 = Some u ->
  buildRequest (toks1 ++ toks2) = Ok req2 ->
  exists rest, url req2 = Some (u +:+ rest).
Proof.
  intros H1 Hu H2.
  apply buildRequest_Ok in H1 as [s1 Hrun1]. apply buildRequest_Ok in H2 as [s2 Hrun2].
  rewrite run_args_app, Hrun1 in Hrun2. cbn [bind fst snd] in Hrun2.
  pose proof Hrun1 as Hc.
  apply (run_args_preserves url_consistent any_state) in Hc as [Hc _];
    [ | intros; apply url_consistent_step | reflexivity | exact I ].
  cbn [fst] in Hc. unfold url_consistent in Hc. rewrite Hu in Hc.
  destruct Hc as [Htruthy _].
  apply (run_args_preserves
           (fun r => exists rest, url r = Some (u +:+ rest)) any_state) in Hrun2
    as [Hgoal _]; [exact Hgoal | | | exact I].
  - intros t _. split; [|split].
    + intros req req' fs H (rest & Hr). split; [|exact I]. exists rest.
      flag_cases H; exact Hr.
    + intros s req req' _ _ H (rest & Hr). exists rest.
      destruct s; value_cases H; exact Hr.
    + intros req (rest & Hr). unfold setURL.
      destruct (getUrlString t) as [x|]; [|eauto].
      destruct (Js.truthy x); [|eauto].
      unfold updateUrlWithoutQuery. cbn [url set_url]. rewrite Hr.
      rewrite (truthy_append_l _ rest Htruthy).
      rewrite (truthy_append_l _ x (truthy_append_l _ rest Htruthy)).
      cbn [url set_urlWithoutQuery]. exists (rest +:+ x). now rewrite append_assoc.
  - exists EmptyString. now rewrite append_empty_r.
Qed.
End UrlPieces.

Lemma url_pieces_are_concatenated_witness :
  exists req',
    @run_args ModelLibs
      [Glob "http://example.com/api?a=1"; Op "&"; Word "b=2"] None empty_request
    = Ok (req', None)
    /\ url req' = Some "http://example.com/api?a=1&b=2".
Proof.
  apply (@url_pieces_are_concatenated ModelLibs
           [Glob "http://example.com/api?a=1"; Op "&"; Word "b=2"]
           ["http://example.com/api?a=1"; "&"; "b=2"] empty_request).
  - repeat constructor.
  - discriminate.
Defined.

Lemma url_only_grows_witness :
  exists rest,
    url (set_urlWithoutQuery (Some "http://example.com/api")
           (set_url (Some "http://example.com/api?a=1") empty_request))
    = Some ("http://example.com/api" +:+ rest).
Proof.
  apply (@url_only_grows ModelLibs
           [Word "curl"; Word "http://example.com/api"] [Word "?a=1"]
           (set_urlWithoutQuery (Some "http://example.com/api")
              (set_url (Some "http://example.com/api") empty_request))
           _ "http://example.com/api"); vm_compute; reflexivity.
Defined.

(** ** Form fields and cookies given several times *)

Lemma form_flag_category (f : string) :
  f ∈ ["-F"; "--form"] -> find_category (Word f) = Some CForm.
Proof.
  intros Hf. repeat (apply elem_of_cons in Hf as [->|Hf]; [reflexivity|]).
  inversion Hf.
Qed.

Lemma cookie_flag_category (f : string) :
  f ∈ ["-b"; "--cookie"] -> find_category (Word f) = Some CCookie.
Proof.
  intros Hf. repeat (apply elem_of_cons in Hf as [->|Hf]; [reflexivity|]).
  inversion Hf.
Qed.

Section Repeated.
Context {L : Libs}.

Lemma run_args_form_fields_aux (pairs : list (string * string)) :
  Forall (fun p => fst p ∈ ["-F"; "--form"] /\ consumable (snd p)) pairs ->
  forall st req,
    exists req' st',
      run_args (flag_value_args pairs) st req = Ok (req', st')
      /\ default [] (multipartUploads req')
         = default [] (multipartUploads req) ++ omap parseFormField (snd <$> pairs)
      /\ (pairs <> [] ->
          st' = None /\ method req' = Some "POST" /\ is_Some (multipartUploads req')).
Proof.
  induction 1 as [|[f v] pairs (Hf & Hv & Hc) _ IH]; intros st req.
  - exists req, st. cbn. rewrite app_nil_r. now repeat split.
  - change (flag_value_args ((f, v) :: pairs))
      with (Word f :: Word v :: flag_value_args pairs).
    cbn [fst snd] in Hf, Hv, Hc.
    rewrite (run_args_flag_value f CForm StForm (Word v) _ st req
               (form_flag_category f Hf) eq_refl Hc Hv).
    cbn [handleValue setFormData mark_data_kind bind].
    match goal with
    | |- context [run_args _ None ?r] => destruct (IH None r) as (req' & st' & Hrun & Hup & Hlast)
    end.
    exists req', st'. split; [exact Hrun|]. split.
    + rewrite Hup. cbn [multipartUploads set_method set_multipartUploads default
                          from_option id fmap list_fmap snd omap list_omap].
      rewrite <- app_assoc. f_equal.
      destruct (parseFormField v); reflexivity.
    + intros _. destruct pairs as [|p pairs].
      * cbn in Hrun. injection Hrun as <- <-. cbn. eauto.
      * apply Hlast. discriminate.
Qed.

(** X16.  Several [-F] or [--form] flags add up: their fields, parsed and
    in the order of the flags, are appended to the multipart list (a
    field that cannot be parsed is left out), and the method is POST. *)
Theorem form_fields_accumulate (pairs : list (string * string))
    (st : option state) (req : request) :
  Forall (fun p => fst p ∈ ["-F"; "--form"] /\ consumable (snd p)) pairs ->
  pairs <> [] ->
  exists req',
    run_args (flag_value_args pairs) st req = Ok (req', None)
    /\ multipartUploads req'
       = Some (default [] (multipartUploads req) ++ omap parseFormField (snd <$> pairs))
    /\ method req' = Some "POST".
Proof.
  intros H Hne.
  destruct (run_args_form_fields_aux pairs H st req) as (req' & st' & Hrun & Hup & Hlast).
  destruct (Hlast Hne) as (-> & Hm & [l Hl]).
  exists req'. split; [exact Hrun|]. split; [|exact Hm].
  rewrite Hl in *. cbn in Hup. now rewrite Hup.
Qed.

Lemma run_args_cookies_aux (pairs : list (string * string)) :
  Forall (fun p => fst p ∈ ["-b"; "--cookie"] /\ consumable (snd p)) pairs ->
  forall st req,
    is_Some (headers req) ->
    exists req' st',
      run_args (flag_value_args pairs) st req = Ok (req', st')
      /\ is_Some (headers req')
      /\ (forall v, last (snd <$> pairs) = Some v ->
            st' = None
            /\ cookieString req' = Some v
            /\ cookies req' = Some (cookie_parse v)
            /\ exists h, headers req' = Some h /\ h !! "Cookie" = Some (Some (Word v))).
Proof.
  induction 1 as [|[f v] pairs (Hf & Hv & Hc) _ IH]; intros st req [h Hh].
  - exists req, st. cbn. split; [reflexivity|]. split; [eauto|]. discriminate.
  - change (flag_value_args ((f, v) :: pairs))
      with (Word f :: Word v :: flag_value_args pairs).
    cbn [fst snd] in Hf, Hv, Hc.
    rewrite (run_args_flag_value f CCookie StCookie (Word v) _ st req
               (cookie_flag_category f Hf) eq_refl Hc Hv).
    cbn [handleValue setCookie mark_data_kind]. unfold headers_set.
    cbn [headers set_cookies set_cookieString]. rewrite Hh. cbn [bind].
    match goal with
    | |- context [run_args _ None ?r] =>
        destruct (IH None r) as (req' & st' & Hrun & Hhead & Hlast); [cbn; eauto|]
    end.
    exists req', st'. split; [exact Hrun|]. split; [exact Hhead|].
    intros w Hw. destruct pairs as [|p pairs].
    + cbn in Hw. injection Hw as <-. cbn in Hrun. injection Hrun as <- <-.
      cbn. repeat split. eexists. split; [reflexivity|].
      unfold obj_set. rewrite decide_False by discriminate. apply lookup_insert_eq.
    + apply Hlast. exact Hw.
Qed.

(** X17.  Of several [-b] or [--cookie] flags the last one wins: the
    cookie string, the parsed cookies and the Cookie header are those of
    the last value; cookies are not merged. *)
Theorem last_cookie_wins (pairs : list (string * string)) (v : string)
    (st : option state) (req : request) :
  Forall (fun p => fst p ∈ ["-b"; "--cookie"] /\ consumable (snd p)) pairs ->
  is_Some (headers req) ->
  last (snd <$> pairs) = Some v ->
  exists req' h,
    run_args (flag_value_args pairs) st req = Ok (req', None)
    /\ cookieString req' = Some v
    /\ cookies req' = Some (cookie_parse v)
    /\ headers req' = Some h
    /\ h !! "Cookie" = Some (Some (Word v)).
Proof.
  intros H Hh Hv.
  destruct (run_args_cookies_aux pairs H st req Hh) as (req' & st' & Hrun & _ & Hlast).
  destruct (Hlast v Hv) as (-> & Hs & Hc & h & Hh' & Hl).
  exists req', h. auto.
Qed.
End Repeated.

Lemma form_fields_accumulate_witness :
  exists req',
    @run_args ModelLibs
      [Word "-F"; Word "name=John"; Word "--form"; Word "avatar=@/tmp/a.png"]
      None empty_request = Ok (req', None)
    /\ multipartUploads req'
       = Some [MkUpload "name" "John" "text" true;
               MkUpload "avatar" "/tmp/a.png" "file" true]
    /\ method req' = Some "POST".
Proof.
  refine (@form_fields_accumulate ModelLibs
            [("-F", "name=John"); ("--form", "avatar=@/tmp/a.png")]
            None empty_request _ _).
  - repeat constructor; is_member.
  - discriminate.
Defined.

Lemma last_cookie_wins_witness :
  exists req' h,
    @run_args ModelLibs [Word "-b"; Word "a=1"; Word "--cookie"; Word "b=2"]
      None empty_request = Ok (req', None)
    /\ cookieString req' = Some "b=2"
    /\ cookies req' = Some (Model.cookie_parse "b=2")
    /\ headers req' = Some h
    /\ h !! "Cookie" = Some (Some (Word "b=2")).
Proof.
  refine (@last_cookie_wins ModelLibs [("-b", "a=1"); ("--cookie", "b=2")] "b=2"
            None empty_request _ _ _).
  - repeat constructor; is_member.
  - cbn. eauto.
  - reflexivity.
Defined.

(** ** When the parser returns *)

Section Returns.
Context {L : Libs}.

Lemma handleFlag_Ok t req :
  is_Some (headers req) -> exists fr, handleFlag t req = Ok fr.
Proof.
  intros [h Hh]. unfold handleFlag.
  destruct (find_category t) as [[]|]; cbn; unfold headers_set; rewrite ?Hh;
    cbn; eauto.
Qed.

Lemma handleValue_Word_Ok w s req :
  is_Some (headers req) -> exists r, handleValue (Word w) s req = Ok r.
Proof.
  intros [h Hh].
  destruct s; cbn [handleValue]; eauto;
    unfold setHeader, setUserAgent, setJsonData, setFormData, setMethod, setCookie,
      headers_set;
    try destruct (split_header w) as [n v];
    try destruct (_ || _);
    cbn [headers set_method set_cookies set_cookieString]; rewrite ?Hh; cbn [bind];
    eauto.
Qed.

Lemma isURLOrFragment_Word_Ok w parsed :
  URL_parse w = Ok parsed -> exists b, isURLOrFragment (Word w) = Ok b.
Proof.
  intros Hp. unfold isURLOrFragment, isURL, host_truthy. rewrite Hp. cbn [bind].
  match goal with |- context [if ?c then _ else _] => destruct c end;
    cbn [isURLFragment]; eauto.
Qed.

Lemma isURLOrFragment_Word_Throw w e :
  URL_parse w = Throw e -> isURLOrFragment (Word w) = Throw e.
Proof.
  intros Hp. unfold isURLOrFragment, isURL, host_truthy. now rewrite Hp.
Qed.

Lemma processArgument_Word_Ok w st req :
  is_Some (headers req) -> (exists parsed, URL_parse w = Ok parsed) ->
  exists pr, processArgument (Word w) st req = Ok pr.
Proof.
  intros Hh [parsed Hparsed]. unfold processArgument.
  destruct (handleFlag_Ok (Word w) req Hh) as [[req1 fs] Hf]. rewrite Hf. cbn [bind fst snd].
  assert (is_Some (headers req1)) as Hh1.
  { destruct (headers_step (Word w)) as (Hflag & _). now apply (Hflag _ _ _ Hf). }
  destruct fs; [eauto|]. destruct st as [s|].
  - destruct (token_truthy (Word w)); [|eauto].
    destruct (handleValue_Word_Ok w s req1 Hh1) as [r ->]. cbn. eauto.
  - destruct (isURLOrFragment_Word_Ok w parsed Hparsed) as [b ->]. cbn [bind]. eauto.
Qed.

Lemma run_args_words_Ok toks :
  forallb is_word toks = true ->
  (forall w, Word w ∈ toks -> exists parsed, URL_parse w = Ok parsed) ->
  forall st req, is_Some (headers req) -> exists res, run_args toks st req = Ok res.
Proof.
  induction toks as [|t toks IH]; intros Hw Hp st req Hh; [cbn; eauto|].
  cbn [forallb] in Hw. apply andb_true_iff in Hw as [Ht Hw].
  destruct t as [w| | |]; try discriminate Ht.
  destruct (processArgument_Word_Ok w st req Hh) as [pr Hpr].
  { apply Hp. left. }
  cbn [run_args]. rewrite Hpr. cbn [bind]. apply (IH Hw).
  - intros w' Hin. apply Hp. now right.
  - destruct (processArgument_preserves _ any_state _ _ _ _ (headers_step (Word w))
                Hh I Hpr) as [H _].
    exact H.
Qed.

(** X18.  [buildRequest] returns for every list of arguments that are all
    strings on which [URL.parse] returns: with such arguments nothing in
    the code of the parser throws.  An exception of [URL.parse] is not
    caught: when it throws on a first argument that is not a flag,
    [buildRequest] throws the same exception. *)
Theorem buildRequest_returns_on_strings (toks : list token) :
  (forallb is_word toks = true ->
   (forall w, Word w ∈ toks -> exists parsed, URL_parse w = Ok parsed) ->
   exists req, buildRequest toks = Ok req)
  /\ (forall w e, head toks = Some (Word w) ->
        find_category (Word w) = None -> URL_parse w = Throw e ->
        buildRequest toks = Throw e).
Proof.
  split.
  - intros Hw Hp.
    destruct (run_args_words_Ok toks Hw Hp None empty_request) as [[req st] Hrun].
    + cbn. eauto.
    + exists req. apply buildRequest_Ok. eauto.
  - intros w e Hh Hc Hp. destruct toks as [|t rest]; [discriminate Hh|].
    injection Hh as ->. unfold buildRequest. cbn [run_args].
    rewrite (processArgument_idle _ _ Hc), (isURLOrFragment_Word_Throw _ _ Hp).
    reflexivity.
Qed.

Lemma postBuildProcessRequest_without_query req :
  isQuery req = false ->
  exists p, postBuildProcessRequest req = Ok p /\ method_missing p = false.
Proof.
  intros Hq. unfold postBuildProcessRequest. rewrite Hq. cbn [andb].
  unfold method_missing.
  destruct (jsval_truthy (data req)); cbn [bind];
    destruct (method req) as [[|c m]|] eqn:Hm; cbn;
    repeat case_bool_decide; cbn; rewrite ?Hm; cbn;
    try (eexists; split; [reflexivity|]; cbn; rewrite ?Hm; reflexivity).
Qed.

(** X19.  [parseCurlCommand] returns a request whenever the tokenizer
    returns arguments that are all strings, [URL.parse] returns on each
    of them, and none of them is [-G] or [--get]. *)
Theorem parseCurlCommand_returns (curl : string) (toks : list token) :
  shell_parse (cleanCurlCommand curl) = Ok toks ->
  forallb is_word toks = true ->
  (forall w, Word w ∈ toks -> exists parsed, URL_parse w = Ok parsed) ->
  ~ mentions ["-G"; "--get"] toks ->
  exists r, parseCurlCommand curl = Ok r.
Proof.
  intros Ht Hw Hparse Hg.
  destruct (run_args_words_Ok toks Hw Hparse None empty_request) as [[req st] Hrun];
    [cbn; eauto|].
  pose proof (run_args_no_query _ _ empty_request _ Hg eq_refl Hrun) as Hq.
  cbn [fst] in Hq.
  destruct (postBuildProcessRequest_without_query req Hq) as (p & Hp & Hm).
  unfold parseCurlCommand. rewrite Ht. cbn [bind].
  unfold buildRequest. rewrite Hrun. cbn [bind fst]. rewrite Hp. cbn [bind].
  unfold normalizeRequest. unfold method_missing in Hm.
  destruct (method p); [eauto | discriminate Hm].
Qed.
End Returns.

Lemma buildRequest_returns_on_strings_witness :
  exists req, @buildRequest ModelLibs [Word "curl"; Word "-G"; Word "-d"; Word "a=b"] = Ok req.
Proof.
  apply (@buildRequest_returns_on_strings ModelLibs);
    [reflexivity | intros w _; eexists; reflexivity].
Defined.

Lemma parseCurlCommand_returns_witness :
  exists r, run "curl -H 'Accept: text/html' -d a=b http://example.com" = Ok r.
Proof.
  apply (@parseCurlCommand_returns ModelLibs
           "curl -H 'Accept: text/html' -d a=b http://example.com"
           [Word "curl"; Word "-H"; Word "Accept: text/html"; Word "-d"; Word "a=b";
            Word "http://example.com"]);
    [vm_compute; reflexivity | reflexivity | intros w _; eexists; reflexivity
    | no_mention].
Defined.

(** ** The markers of a request *)

Section Markers.
Context {L : Libs}.

(** A property [Q] that every argument preserves, and that the flags of
    the category [c] establish, holds at the end of the loop when the
    arguments mention a flag of [c]. *)
Lemma run_args_established (Q : request -> Prop) (c : category) (ws : list string)
    toks st req res :
  (forall t, step_ok Q any_state t) ->
  (forall t req req1 fs,
     find_category t = Some c -> handleFlag t req = Ok (req1, fs) -> Q req1) ->
  (forall w, w ∈ ws -> w ∈ flags_of c) ->
  mentions ws toks ->
  run_args toks st req = Ok res -> Q (fst res).
Proof.
  intros Hstep Hset Hws (w & Hw & Hin) Hrun.
  apply list_elem_of_split in Hin as (l1 & l2 & ->).
  rewrite run_args_app in Hrun. apply bind_Ok in Hrun as ([r1 s1] & _ & Hrun).
  cbn in Hrun. apply bind_Ok in Hrun as (pr & Hpr & Hrun).
  apply (run_args_preserves Q any_state) in Hrun as [HQ _];
    [exact HQ | intros; apply Hstep | | exact I].
  assert (find_category (Word w) = Some c) as Hc
    by (apply find_category_flag, Hws, Hw).
  apply processArgument_stages in Hpr as (req1 & fs & Hf & Hstage).
  pose proof (Hset _ _ _ _ Hc Hf) as Hq.
  destruct (Hstep (Word w)) as (_ & Hvalue & Hurl).
  destruct Hstage as [-> | [(s & Ht & Hv) | ->]]; eauto.
  eapply Hvalue; [exact I | exact Ht | exact Hv | exact Hq].
Qed.

Ltac marker_step :=
  split; [|split];
  [ let H := fresh "H" in
    intros ? ? ? H ?; split; [|exact I];
    flag_cases H; first [assumption | reflexivity | congruence]
  | let H := fresh "H" in
    let s := fresh "s" in
    intros s ? ? _ _ H ?; destruct s; value_cases H; assumption
  | intros ? ?; autorewrite with frame; assumption ].

Lemma insecure_step t : step_ok (fun r => insecure r = true) any_state t.
Proof. marker_step. Qed.
Lemma isDataRaw_step t : step_ok (fun r => isDataRaw r = true) any_state t.
Proof. marker_step. Qed.
Lemma isDataBinary_step t : step_ok (fun r => isDataBinary r = true) any_state t.
Proof. marker_step. Qed.

Lemma not_insecure_step t :
  find_category t <> Some CInsecure -> step_ok (fun r => insecure r = false) any_state t.
Proof. intros Hn. marker_step. Qed.
Lemma not_isDataRaw_step t :
  find_category t <> Some CDataRaw -> step_ok (fun r => isDataRaw r = false) any_state t.
Proof. intros Hn. marker_step. Qed.
Lemma not_isDataBinary_step t :
  find_category t <> Some CDataBinary ->
  step_ok (fun r => isDataBinary r = false) any_state t.
Proof. intros Hn. marker_step. Qed.

Lemma query_step t : step_ok (fun r => query r = None) any_state t.
Proof. marker_step. Qed.

Lemma markers_after_build req r processed :
  postBuildProcessRequest req = Ok processed -> normalizeRequest processed = Ok r ->
  insecure r = insecure req /\ isDataRaw r = isDataRaw req
  /\ isDataBinary r = isDataBinary req.
Proof.
  unfold postBuildProcessRequest, convertDataToQueryString, normalizeRequest, bind.
  intros Hp Hn. repeat case_match; simplify_eq; cbn; auto.
Qed.

Lemma mentions_dec (ws : list string) (toks : list token) :
  mentions ws toks \/ ~ mentions ws toks.
Proof.
  destruct (decide (Exists (fun w => Word w ∈ toks) ws)) as [H|H].
  - left. apply Exists_exists in H as (w & Hw & Hin). now exists w.
  - right. intros (w & Hw & Hin). apply H, Exists_exists. now exists w.
Qed.

(** A marker [F] that the flags of [c], and only they, set, is set at the
    end of the loop exactly when the arguments mention such a flag. *)
Lemma marker_iff (F : request -> bool) (c : category) toks st req res :
  (forall t, step_ok (fun r => F r = true) any_state t) ->
  (forall t, find_category t <> Some c -> step_ok (fun r => F r = false) any_state t) ->
  (forall t req req1 fs,
     find_category t = Some c -> handleFlag t req = Ok (req1, fs) -> F req1 = true) ->
  F req = false ->
  run_args toks st req = Ok res ->
  F (fst res) = true <-> mentions (flags_of c) toks.
Proof.
  intros Hset Hunset Hflag Hreq Hrun. split.
  - intros Htrue. destruct (mentions_dec (flags_of c) toks) as [Hm|Hm]; [exact Hm|].
    apply (run_args_preserves (fun r => F r = false) any_state) in Hrun as [Hfalse _];
      [ congruence | | exact Hreq | exact I ].
    intros t Hin. apply Hunset. eapply absent_category; [exact Hm | exact Hin | done].
  - intros Hm.
    exact (run_args_established (fun r => F r = true) c (flags_of c) _ _ _ _
             Hset Hflag (fun _ H => H) Hm Hrun).
Qed.

(** X20.  The markers of the returned request tell which flags the
    command had: [insecure] is set exactly when [-k] or [--insecure] is
    among the arguments, [isDataRaw] exactly when [--data-raw] is, and
    [isDataBinary] exactly when [--data-binary] is. *)
Theorem markers_tell_the_flags (curl : string) (toks : list token) (r : request) :
  shell_parse (cleanCurlCommand curl) = Ok toks ->
  parseCurlCommand curl = Ok r ->
  (insecure r = true <-> mentions ["-k"; "--insecure"] toks)
  /\ (isDataRaw r = true <-> mentions ["--data-raw"] toks)
  /\ (isDataBinary r = true <-> mentions ["--data-binary"] toks).
Proof.
  intros Ht H. apply parseCurlCommand_Ok in H as (toks' & req & p & Ht' & Hb & Hp & Hn).
  rewrite Ht in Ht'. injection Ht' as <-.
  apply buildRequest_Ok in Hb as [st Hrun].
  destruct (markers_after_build _ _ _ Hp Hn) as (-> & -> & ->).
  split; [|split].
  - refine (marker_iff insecure CInsecure _ _ empty_request _ insecure_step not_insecure_step
              _ eq_refl Hrun).
    intros t r0 r1 fs Hc Hf. unfold handleFlag in Hf. rewrite Hc in Hf.
    cbn in Hf. now simplify_eq.
  - refine (marker_iff isDataRaw CDataRaw _ _ empty_request _ isDataRaw_step not_isDataRaw_step
              _ eq_refl Hrun).
    intros t r0 r1 fs Hc Hf. unfold handleFlag in Hf. rewrite Hc in Hf.
    cbn in Hf. now simplify_eq.
  - refine (marker_iff isDataBinary CDataBinary _ _ empty_request _ isDataBinary_step
              not_isDataBinary_step _ eq_refl Hrun).
    intros t r0 r1 fs Hc Hf. unfold handleFlag in Hf. rewrite Hc in Hf.
    cbn in Hf. now simplify_eq.
Qed.

(** X21.  The query flag without data moves nothing: when the arguments
    have [-G] or [--get] and no data flag, the returned request has the URL
    that [buildRequest] collected, no query field and no data, and it
    keeps the [isQuery] marker. *)
Theorem query_flag_without_data (curl : string) (toks : list token) (req : request) :
  shell_parse (cleanCurlCommand curl) = Ok toks ->
  buildRequest toks = Ok req ->
  mentions ["-G"; "--get"] toks ->
  ~ mentions (data_flags ++ ["--json"]) toks ->
  exists r,
    parseCurlCommand curl = Ok r
    /\ isQuery r = true
    /\ url r = url req
    /\ query r = None
    /\ data r = None.
Proof.
  intros Ht Hb Hg Hnd.
  pose proof Hb as Hb'. apply buildRequest_Ok in Hb' as [st Hrun].
  pose proof (run_args_query_flag _ _ _ _ Hg Hrun) as Hq.
  pose proof (run_args_no_data _ empty_request _ Hnd eq_refl Hrun) as Hd.
  pose proof Hrun as Hquery.
  apply (run_args_preserves (fun r => query r = None) any_state) in Hquery as [Hquery _];
    [ | intros; apply query_step | reflexivity | exact I ].
  cbn [fst] in Hq, Hd, Hquery.
  unfold parseCurlCommand. rewrite Ht. cbn [bind]. rewrite Hb. cbn [bind].
  unfold postBuildProcessRequest. rewrite Hq, Hd. cbn [jsval_truthy andb bind].
  unfold method_missing, normalizeRequest.
  destruct (method req) as [m|] eqn:Hm; [destruct (Js.truthy m)|];
    cbn; rewrite ?Hm; eexists; (split; [reflexivity|]);
    destruct (headers_isEmpty _); cbn; auto.
Qed.
End Markers.

Lemma markers_tell_the_flags_witness :
  insecure (returned "curl -k --data-raw x http://example.com") = true
  /\ isDataRaw (returned "curl -k --data-raw x http://example.com") = true
  /\ isDataBinary (returned "curl -k --data-raw x http://example.com") = false.
Proof.
  destruct (@markers_tell_the_flags ModelLibs "curl -k --data-raw x http://example.com"
              [Word "curl"; Word "-k"; Word "--data-raw"; Word "x";
               Word "http://example.com"]
              (returned "curl -k --data-raw x http://example.com"))
    as (Hi & Hr & Hb); try (vm_compute; reflexivity).
  split; [|split].
  - apply Hi. exists "-k". split; is_member.
  - apply Hr. exists "--data-raw". split; is_member.
  - destruct (isDataBinary _) eqn:Hbin; [|reflexivity].
    exfalso. revert Hbin. vm_compute. discriminate.
Defined.

Lemma query_flag_without_data_witness :
  exists r,
    run "curl -G http://example.com/api" = Ok r
    /\ isQuery r = true
    /\ url r = Some "http://example.com/api"
    /\ query r = None
    /\ data r = None.
Proof.
  apply (@query_flag_without_data ModelLibs "curl -G http://example.com/api"
           [Word "curl"; Word "-G"; Word "http://example.com/api"]
           (set_urlWithoutQuery (Some "http://example.com/api")
              (set_url (Some "http://example.com/api")
                 (set_isQuery true empty_request))));
    try (vm_compute; reflexivity).
  - exists "-G". split; is_member.
  - no_mention.
Defined.

(** ** Commands that need no cleaning *)

Lemma unescape_dollar_quotes_id (s : string) :
  Js.includes "$" s = false -> unescape_dollar_quotes 0 s = s.
Proof.
  induction s as [|c r IH]; [reflexivity|].
  cbn [Js.includes Js.existsb unescape_dollar_quotes]. intros H.
  apply orb_false_iff in H as [Hc H]. rewrite ascii_eqb_sym in Hc. rewrite Hc.
  fold (Js.includes "$" r) in H. rewrite (IH H). now destruct r.
Qed.

Lemma remove_line_continuations_id (s : string) :
  Js.includes Js.BS s = false -> remove_line_continuations s = s.
Proof.
  induction s as [|c r IH]; [reflexivity|].
  cbn [Js.includes Js.existsb remove_line_continuations]. intros H.
  apply orb_false_iff in H as [Hc H]. rewrite ascii_eqb_sym in Hc. rewrite Hc.
  fold (Js.includes Js.BS r) in H. rewrite (IH H). now destruct r.
Qed.

Lemma convert_escaped_quotes_id (s : string) :
  Js.includes Js.BS s = false -> convert_escaped_quotes s = s.
Proof.
  induction s as [|c r IH]; [reflexivity|].
  cbn [Js.includes Js.existsb convert_escaped_quotes]. intros H.
  apply orb_false_iff in H as [Hc H]. rewrite ascii_eqb_sym in Hc. rewrite Hc.
  fold (Js.includes Js.BS r) in H. rewrite (IH H). now destruct r.
Qed.

Lemma space_is_plain (c : ascii) :
  negb (Js.is_space c) || Js.ascii_eqb c " " = true -> Js.is_space c = true -> c = " "%char.
Proof. intros H Hs. rewrite Hs in H. now apply ascii_eqb_true in H. Qed.

Lemma collapse_whitespace_id (b : bool) (s : string) :
  single_line s = true -> contains "  " s = false ->
  (b = true -> starts_with_space s = false) ->
  collapse_whitespace b s = s.
Proof.
  revert b. induction s as [|c r IH]; intros b Hl Hd Hb; [reflexivity|].
  unfold single_line in Hl. cbn [Js.forallb] in Hl.
  apply andb_true_iff in Hl as [Hc Hl].
  cbn [contains] in Hd. apply orb_false_iff in Hd as [Hp Hd].
  pose proof (space_is_plain c Hc) as Hplain.
  cbn [collapse_whitespace]. destruct (Js.is_space c) eqn:Hs.
  - rewrite (Hplain eq_refl) in *. clear Hplain.
    destruct b; [specialize (Hb eq_refl); cbn [starts_with_space] in Hb; congruence|].
    rewrite (IH true Hl Hd); [reflexivity|]. intros _.
    destruct r as [|d r']; [reflexivity|]. cbn [starts_with_space].
    unfold single_line in Hl. cbn [Js.forallb] in Hl.
    apply andb_true_iff in Hl as [Hdc _].
    pose proof (space_is_plain d Hdc) as Hplain.
    destruct (Js.is_space d); [|reflexivity].
    rewrite (Hplain eq_refl) in Hp. destruct r'; vm_compute in Hp; discriminate Hp.
  - rewrite (IH false Hl Hd); [reflexivity | discriminate].
Qed.

Lemma trimStart_id (s : string) : starts_with_space s = false -> Js.trimStart s = s.
Proof. destruct s as [|c r]; [reflexivity|]. cbn. now intros ->. Qed.

Lemma trimEnd_id (s : string) : ends_with_space s = false -> Js.trimEnd s = s.
Proof.
  induction s as [|c r IH]; [reflexivity|]. cbn [ends_with_space Js.trimEnd].
  destruct r as [|d r'].
  - intros ->. reflexivity.
  - intros H. now rewrite (IH H).
Qed.

(** X22.  [cleanCurlCommand] returns an ASCII command as it is when the
    command has no dollar sign and no backslash, has single plain spaces
    as its only white space, none at its ends, and no method glued to
    [-X]. *)
Theorem cleanCurlCommand_unchanged (curlCommand : string) :
  is_ascii curlCommand = true ->
  Js.includes "$" curlCommand = false ->
  Js.includes Js.BS curlCommand = false ->
  single_line curlCommand = true ->
  contains "  " curlCommand = false ->
  starts_with_space curlCommand = false ->
  ends_with_space curlCommand = false ->
  forallb (fun fix_ => negb (contains (fst fix_) curlCommand)) methodFixes = true ->
  cleanCurlCommand curlCommand = curlCommand.
Proof.
  intros _ Hd Hb Hl Hs Hf He Hm. unfold cleanCurlCommand, Js.trim.
  rewrite (unescape_dollar_quotes_id _ Hd), (remove_line_continuations_id _ Hb).
  rewrite (collapse_whitespace_id false _ Hl Hs) by discriminate.
  rewrite (convert_escaped_quotes_id _ Hb), (fixConcatenatedMethods_absent _ Hm).
  now rewrite (trimStart_id _ Hf), (trimEnd_id _ He).
Qed.

Lemma cleanCurlCommand_unchanged_witness :
  cleanCurlCommand "curl -X POST -d 'a=b' http://example.com"
  = "curl -X POST -d 'a=b' http://example.com".
Proof. apply cleanCurlCommand_unchanged; vm_compute; reflexivity. Defined.

(** ** What is collected and what is returned *)

Section Returned.
Context {L : Libs}.

(** X23.  The data of a returned request is never the empty string. *)
Theorem returned_data_not_empty (curl : string) (r : request) (d : token) :
  parseCurlCommand curl = Ok r -> data r = Some d -> token_truthy d = true.
Proof.
  intros H Hd. apply parseCurlCommand_Ok in H as (toks & req & p & _ & Hb & Hp & Hn).
  apply buildRequest_Ok in Hb as [st Hrun].
  assert (data_ok empty_request) as Hok by exact I.
  apply (fun H => run_args_data_ok _ _ _ _ H Hrun) in Hok. cbn [fst] in Hok.
  apply normalizeRequest_Ok in Hn as (m & _ & _ & _ & _ & Hdata & _).
  rewrite Hdata in Hd.
  assert (data p = data req \/ data p = None) as [Hpd | Hpd].
  { unfold postBuildProcessRequest, convertDataToQueryString, bind in Hp.
    repeat case_match; simplify_eq; cbn; auto. }
  - rewrite Hpd in Hd. unfold data_ok in Hok. now rewrite Hd in Hok.
  - rewrite Hpd in Hd. discriminate Hd.
Qed.

(** X24.  Without [-X] and [--request] the returned method is one of
    [get], [head] and [post]. *)
Theorem implicit_method_returned (curl : string) (toks : list token) (r : request) :
  shell_parse (cleanCurlCommand curl) = Ok toks ->
  ~ mentions ["-X"; "--request"] toks ->
  parseCurlCommand curl = Ok r ->
  method r = Some "get" \/ method r = Some "head" \/ method r = Some "post".
Proof.
  intros Ht HnX H.
  apply parseCurlCommand_Ok in H as (toks' & req & p & Ht' & Hb & Hp & Hn).
  rewrite Ht in Ht'. injection Ht' as <-.
  apply buildRequest_Ok in Hb as [st Hrun].
  pose proof (run_args_implicit_method _ empty_request _ HnX (or_introl eq_refl) Hrun)
    as Hm.
  cbn [fst] in Hm. apply postBuildProcessRequest_method in Hp.
  apply normalizeRequest_Ok in Hn as (m & Hpm & -> & _).
  unfold default_method, method_missing in Hp.
  destruct Hm as [Hm | [Hm | Hm]]; rewrite Hm in Hp; cbn in Hp;
    repeat match type of Hp with
           | context [if ?b then _ else _] => destruct b
           end;
    rewrite Hp in Hpm; injection Hpm as <-; cbn; auto.
Qed.
End Returned.

Lemma returned_data_not_empty_witness :
  token_truthy (Word "a=b") = true.
Proof.
  apply (@returned_data_not_empty ModelLibs "curl -d a=b http://example.com"
           (returned "curl -d a=b http://example.com") (Word "a=b"));
    vm_compute; reflexivity.
Defined.

Lemma implicit_method_returned_witness :
  method (returned "curl -I http://example.com") = Some "get"
  \/ method (returned "curl -I http://example.com") = Some "head"
  \/ method (returned "curl -I http://example.com") = Some "post".
Proof.
  apply (@implicit_method_returned ModelLibs "curl -I http://example.com"
           [Word "curl"; Word "-I"; Word "http://example.com"]);
    [vm_compute; reflexivity | no_mention | vm_compute; reflexivity].
Defined.
